(** * Agent state loader (src/lib/agent-state-loader.ts)

    A shallow embedding of the state-loader utility: the query classifier
    ([isLoadAgentStateQuery], [extractThreadId], [extractAgentName]), the
    state fetch client ([loadStateFromAgent]) and the response composer
    ([createLoadStateResponse]), together with the fragment of JavaScript
    they run on: dynamically typed values, property access, truthiness,
    exceptions, [JSON.stringify], and the outbound [fetch] seen as a call
    into an external agent.

    Scope of the value model.  Values are acyclic data: [undefined], [null],
    booleans, numbers, strings, arrays and plain objects.  Finite numbers are
    the safe integers, those of absolute value at most 2^53 - 1, which
    Number::toString prints digit by digit (every function here only moves
    numbers around or compares a length with zero); a [Finite z] beyond that
    range stands for no JavaScript number.  Strings are sequences of code
    units below 256.  Accessor properties, prototypes and host objects are
    not modelled: none of the property names read by the source lives on a
    prototype.  Values that hold a BigInt, on which [JSON.stringify] throws,
    are the subject of module [Wide]. *)

From Stdlib Require Import String Ascii ZArith NArith List Bool Lia.
From Stdlib Require Import Decimal DecimalString DecimalN DecimalFacts.
Import ListNotations.

Local Open Scope string_scope.
Local Open Scope Z_scope.

(* ================================================================== *)
(** ** JavaScript values *)
(* ================================================================== *)

Module JS.

(** The Number type, restricted to the safe integers and the three
    non-finite values. *)
Inductive JsNumber : Type :=
| NaN
| PosInfinity
| NegInfinity
| Finite (z : Z).

(** A plain object is its list of own enumerable string-keyed properties,
    in enumeration order. *)
#[local] Unset Elimination Schemes.
Inductive JsValue : Type :=
| JsUndefined
| JsNull
| JsBool (b : bool)
| JsNum (n : JsNumber)
| JsString (s : string)
| JsArray (elements : list JsValue)
| JsObject (properties : list (string * JsValue)).
#[local] Set Elimination Schemes.

(** What a [throw] carries: an instance of [Error] (with its [name] and
    [message]) or any other value. *)
Inductive Thrown : Type :=
| ErrorObject (name message : string)
| ThrownValue (v : JsValue).

(** Completion of an evaluation: a value, or an exception in flight. *)
Inductive Completion (A : Type) : Type :=
| Normal (a : A)
| Throw (e : Thrown).

Arguments Normal {A} a.
Arguments Throw {A} e.

Definition TypeError (message : string) : Thrown := ErrorObject "TypeError" message.

(** ToBoolean. *)
Definition truthy (v : JsValue) : bool :=
  match v with
  | JsUndefined | JsNull => false
  | JsBool b => b
  | JsNum NaN => false
  | JsNum (Finite z) => negb (z =? 0)
  | JsNum _ => true
  | JsString s => negb (String.eqb s EmptyString)
  | JsArray _ | JsObject _ => true
  end.

(** The [typeof] operator. *)
Definition typeof (v : JsValue) : string :=
  match v with
  | JsUndefined => "undefined"
  | JsNull => "object"
  | JsBool _ => "boolean"
  | JsNum _ => "number"
  | JsString _ => "string"
  | JsArray _ | JsObject _ => "object"
  end.

(** [v === 'literal']: strict equality against a string literal. *)
Definition strict_eq_string (v : JsValue) (literal : string) : bool :=
  match v with
  | JsString s => String.eqb s literal
  | _ => false
  end.

(** [a && b] and [a || b] return one of their operands; [b] is only
    evaluated when needed. *)
Definition js_and (a : JsValue) (b : Completion JsValue) : Completion JsValue :=
  if truthy a then b else Normal a.

Definition js_or (a : JsValue) (b : JsValue) : JsValue :=
  if truthy a then a else b.

(** Decimal digits of a natural number, as Number::toString prints them. *)
Definition digits_of_N (n : N) : string :=
  NilEmpty.string_of_uint (N.to_uint n).

Definition digit_of_char (c : ascii) : option (uint -> uint) :=
  (if c =? "0" then Some D0 else if c =? "1" then Some D1
   else if c =? "2" then Some D2 else if c =? "3" then Some D3
   else if c =? "4" then Some D4 else if c =? "5" then Some D5
   else if c =? "6" then Some D6 else if c =? "7" then Some D7
   else if c =? "8" then Some D8 else if c =? "9" then Some D9
   else None)%char.

(** The longest prefix of decimal digits, and what follows it. *)
Fixpoint read_digits (s : string) : uint * string :=
  match s with
  | EmptyString => (Nil, EmptyString)
  | String c r =>
      match digit_of_char c with
      | Some d => let (ds, r') := read_digits r in (d ds, r')
      | None => (Nil, s)
      end
  end.

(** Number::toString on the modelled numbers: a safe integer prints as its
    decimal digits.  (From 10^21 on Number::toString switches to exponent
    notation; no safe integer gets there.) *)
Definition Number_toString (n : JsNumber) : string :=
  match n with
  | NaN => "NaN"
  | PosInfinity => "Infinity"
  | NegInfinity => "-Infinity"
  | Finite Z0 => "0"
  | Finite (Zpos p) => digits_of_N (Npos p)
  | Finite (Zneg p) => String "-" (digits_of_N (Npos p))
  end.

Fixpoint join (sep : string) (parts : list string) : string :=
  match parts with
  | [] => EmptyString
  | [p] => p
  | p :: ps => p ++ sep ++ join sep ps
  end.

(** An array index is a canonical numeric string below 2^32 - 1. *)
Definition array_index (key : string) : option N :=
  match read_digits key with
  | (Nil, _) => None
  | (d, EmptyString) =>
      let n := N.of_uint d in
      if String.eqb (digits_of_N n) key && (n <? 4294967295)%N
      then Some n else None
  | _ => None
  end.

Fixpoint assoc (key : string) (o : list (string * JsValue)) : option JsValue :=
  match o with
  | [] => None
  | (k, v) :: o' => if String.eqb k key then Some v else assoc key o'
  end.

(** Own property lookup; [None] when the value has no such own property. *)
Definition own_property (v : JsValue) (key : string) : option JsValue :=
  match v with
  | JsObject o => assoc key o
  | JsArray l =>
      if String.eqb key "length" then Some (JsNum (Finite (Z.of_nat (List.length l))))
      else match array_index key with
           | Some i => nth_error l (N.to_nat i)
           | None => None
           end
  | JsString s =>
      if String.eqb key "length" then Some (JsNum (Finite (Z.of_nat (String.length s))))
      else match array_index key with
           | Some i => option_map (fun c => JsString (String c EmptyString))
                                  (String.get (N.to_nat i) s)
           | None => None
           end
  | _ => None
  end.

(** [v.key]: reading a property of [undefined] or [null] throws a
    TypeError; a missing property reads as [undefined]. *)
Definition get (v : JsValue) (key : string) : Completion JsValue :=
  match v with
  | JsUndefined => Throw (TypeError "Cannot read properties of undefined")
  | JsNull => Throw (TypeError "Cannot read properties of null")
  | _ => Normal (match own_property v key with
                 | Some x => x
                 | None => JsUndefined
                 end)
  end.

(** [v?.key]: optional chaining short-circuits to [undefined]. *)
Definition get_opt (v : JsValue) (key : string) : Completion JsValue :=
  match v with
  | JsUndefined | JsNull => Normal JsUndefined
  | _ => get v key
  end.

(** ToString.  An array prints its elements separated by commas, with
    [undefined] and [null] elements printed as nothing. *)
Fixpoint ToString (v : JsValue) : string :=
  match v with
  | JsUndefined => "undefined"
  | JsNull => "null"
  | JsBool true => "true"
  | JsBool false => "false"
  | JsNum n => Number_toString n
  | JsString s => s
  | JsArray l =>
      join "," (map (fun e => match e with
                              | JsUndefined | JsNull => EmptyString
                              | _ => ToString e
                              end) l)
  | JsObject _ => "[object Object]"
  end.

(** [a < b] on numbers; any comparison with NaN is false. *)
Definition number_lt (a b : JsNumber) : bool :=
  match a, b with
  | NaN, _ | _, NaN => false
  | Finite x, Finite y => x <? y
  | NegInfinity, NegInfinity => false
  | NegInfinity, _ => true
  | _, NegInfinity => false
  | PosInfinity, _ => false
  | _, PosInfinity => true
  end.

Section Coercions.

(** StringToNumber reads a numeric literal (decimal, hexadecimal,
    fractional, with exponent, ...) into a Number.  Its results leave the
    modelled numbers, so it stays a parameter of the comparison below. *)
Variable StringToNumber : string -> JsNumber.

(** ToNumber; arrays and objects go through ToPrimitive, that is through
    their string form. *)
Definition ToNumber (v : JsValue) : JsNumber :=
  match v with
  | JsUndefined => NaN
  | JsNull => Finite 0
  | JsBool b => Finite (if b then 1 else 0)
  | JsNum n => n
  | JsString s => StringToNumber s
  | JsArray _ | JsObject _ => StringToNumber (ToString v)
  end.

(** [v > n] for a number [n]. *)
Definition js_gt (v : JsValue) (n : JsNumber) : bool :=
  number_lt n (ToNumber v).

End Coercions.

(** Sequencing of completions. *)
Definition bind {A B} (c : Completion A) (k : A -> Completion B) : Completion B :=
  match c with
  | Normal a => k a
  | Throw e => Throw e
  end.

(** [try { body } catch { handler }]. *)
Definition try_catch {A} (body : Completion A) (handler : Thrown -> Completion A)
  : Completion A :=
  match body with
  | Normal a => Normal a
  | Throw e => handler e
  end.

End JS.

(* ================================================================== *)
(** ** JSON text *)
(* ================================================================== *)

Module JSON.
Import JS.

Definition dquote : ascii := "034"%char.
Definition backslash : ascii := "092"%char.
Definition newline : ascii := "010"%char.

Definition hex_digit (n : N) : ascii :=
  if (n <? 10)%N then ascii_of_N (48 + n) else ascii_of_N (87 + n).

(** One code unit of a quoted string (QuoteJSONString). *)
Definition quote_char (c : ascii) : string :=
  let n := N_of_ascii c in
  if (n =? 8)%N then String backslash "b"
  else if (n =? 9)%N then String backslash "t"
  else if (n =? 10)%N then String backslash "n"
  else if (n =? 12)%N then String backslash "f"
  else if (n =? 13)%N then String backslash "r"
  else if (n =? 34)%N then String backslash (String dquote EmptyString)
  else if (n =? 92)%N then String backslash (String backslash EmptyString)
  else if (n <? 32)%N then
    String backslash
      ("u00" ++ String (hex_digit (n / 16)) (String (hex_digit (n mod 16)) EmptyString))
  else String c EmptyString.

Fixpoint quote_body (s : string) : string :=
  match s with
  | EmptyString => EmptyString
  | String c r => quote_char c ++ quote_body r
  end.

Definition QuoteJSONString (s : string) : string :=
  String dquote (quote_body s ++ String dquote EmptyString).

(** The brackets, separators and indentation around the serialized
    members of an array or object.  [gap] is the indentation unit,
    [stepback] the current indentation. *)
Definition wrap (opening closing gap stepback : string) (partial : list string) : string :=
  match partial with
  | [] => opening ++ closing
  | _ =>
      match gap with
      | EmptyString => opening ++ join "," partial ++ closing
      | _ =>
          let indent := stepback ++ gap in
          opening ++ String newline indent
                  ++ join (String "," (String newline indent)) partial
                  ++ String newline stepback ++ closing
      end
  end.

(** SerializeJSONProperty without a replacer: [None] stands for the
    result [undefined]. *)
Fixpoint SerializeJSONProperty (gap stepback : string) (v : JsValue) {struct v}
  : option string :=
  match v with
  | JsUndefined => None
  | JsNull => Some "null"
  | JsBool true => Some "true"
  | JsBool false => Some "false"
  | JsNum (Finite z) => Some (Number_toString (Finite z))
  | JsNum _ => Some "null"
  | JsString s => Some (QuoteJSONString s)
  | JsArray l =>
      let indent := stepback ++ gap in
      Some (wrap "[" "]" gap stepback
              (map (fun e => match SerializeJSONProperty gap indent e with
                             | Some t => t
                             | None => "null"
                             end) l))
  | JsObject o =>
      let indent := stepback ++ gap in
      Some (wrap "{" "}" gap stepback
              (flat_map (fun kv => let '(k, e) := kv in
                           match SerializeJSONProperty gap indent e with
                           | Some t =>
                               [QuoteJSONString k ++ ":" ++
                                match gap with EmptyString => t | _ => String " " t end]
                           | None => []
                           end) o))
  end.

(** Serialization without indentation. *)
Definition serialize (v : JsValue) : option string :=
  SerializeJSONProperty EmptyString EmptyString v.

(** [JSON.stringify(v)]. *)
Definition stringify (v : JsValue) : JsValue :=
  match serialize v with
  | Some s => JsString s
  | None => JsUndefined
  end.

Fixpoint spaces (n : nat) : string :=
  match n with
  | O => EmptyString
  | S n' => String " " (spaces n')
  end.

(** [JSON.stringify(v, null, space)] for a numeric [space]. *)
Definition stringify_indented (v : JsValue) (space : nat) : JsValue :=
  match SerializeJSONProperty (spaces (Nat.min space 10)) EmptyString v with
  | Some s => JsString s
  | None => JsUndefined
  end.

(** *** Deserialization

    [JSON.parse] on texts whose numbers are integers and whose string
    escapes denote code units below 256.  [None] is a SyntaxError, or a
    text that leaves this fragment. *)

Definition is_ws (c : ascii) : bool :=
  let n := N_of_ascii c in
  ((n =? 32) || (n =? 9) || (n =? 10) || (n =? 13))%N.

Fixpoint skip_ws (s : string) : string :=
  match s with
  | String c r => if is_ws c then skip_ws r else s
  | EmptyString => EmptyString
  end.

Fixpoint expect (literal s : string) : option string :=
  match literal, s with
  | EmptyString, _ => Some s
  | String a l', String b s' => if (a =? b)%char then expect l' s' else None
  | String _ _, EmptyString => None
  end.

Definition hex_value (c : ascii) : option N :=
  let n := N_of_ascii c in
  if ((48 <=? n) && (n <=? 57))%N then Some (n - 48)%N
  else if ((97 <=? n) && (n <=? 102))%N then Some (n - 87)%N
  else if ((65 <=? n) && (n <=? 70))%N then Some (n - 55)%N
  else None.

Definition hex4 (a b c d : ascii) : option N :=
  match hex_value a, hex_value b, hex_value c, hex_value d with
  | Some x, Some y, Some z, Some w => Some (((x * 16 + y) * 16 + z) * 16 + w)%N
  | _, _, _, _ => None
  end.

Definition cons_char (c : ascii) (r : option (string * string)) : option (string * string) :=
  match r with
  | Some (s, rest) => Some (String c s, rest)
  | None => None
  end.

(** The characters of a string literal after its opening quote, up to and
    including the closing quote. *)
Fixpoint read_string (s : string) : option (string * string) :=
  match s with
  | EmptyString => None
  | String c r =>
      if (c =? dquote)%char then Some (EmptyString, r)
      else if (c =? backslash)%char then
        match r with
        | EmptyString => None
        | String e r1 =>
            if (e =? dquote)%char then cons_char dquote (read_string r1)
            else if (e =? backslash)%char then cons_char backslash (read_string r1)
            else if (e =? "/")%char then cons_char "/"%char (read_string r1)
            else if (e =? "b")%char then cons_char "008"%char (read_string r1)
            else if (e =? "f")%char then cons_char "012"%char (read_string r1)
            else if (e =? "n")%char then cons_char "010"%char (read_string r1)
            else if (e =? "r")%char then cons_char "013"%char (read_string r1)
            else if (e =? "t")%char then cons_char "009"%char (read_string r1)
            else if (e =? "u")%char then
              match r1 with
              | String h1 (String h2 (String h3 (String h4 r2))) =>
                  match hex4 h1 h2 h3 h4 with
                  | Some n => if (n <? 256)%N
                              then cons_char (ascii_of_N n) (read_string r2)
                              else None
                  | None => None
                  end
              | _ => None
              end
            else None
        end
      else if (N_of_ascii c <? 32)%N then None
      else cons_char c (read_string r)
  end.

Definition canonical_digits (d : uint) : bool :=
  match d with
  | Nil => false
  | D0 Nil => true
  | D0 _ => false
  | _ => true
  end.

(** After an integer, a fraction or exponent would follow a ['.'], ['e']
    or ['E']. *)
Definition integer_ends (s : string) : bool :=
  match s with
  | EmptyString => true
  | String c _ => negb ((c =? ".") || (c =? "e") || (c =? "E"))%char
  end.

Definition read_number (s : string) : option (JsValue * string) :=
  let '(negative, r) :=
    match s with
    | String c r => if (c =? "-")%char then (true, r) else (false, s)
    | EmptyString => (false, s)
    end in
  let '(d, rest) := read_digits r in
  if canonical_digits d && integer_ends rest then
    let z := Z.of_N (N.of_uint d) in
    Some (JsNum (Finite (if negative then - z else z)), rest)
  else None.

(** Array indices enumerate first, in ascending order; other keys follow
    in creation order. *)
Definition enumerates_before (k k' : string) : bool :=
  match array_index k, array_index k' with
  | Some i, Some j => (i <? j)%N
  | Some _, None => true
  | None, _ => false
  end.

(** CreateDataProperty on a plain object. *)
Fixpoint define_property (k : string) (v : JsValue) (o : list (string * JsValue))
  : list (string * JsValue) :=
  match o with
  | [] => [(k, v)]
  | (k', v') :: o' =>
      if String.eqb k' k then (k', v) :: o'
      else if enumerates_before k k' then (k, v) :: (k', v') :: o'
      else (k', v') :: define_property k v o'
  end.

Definition object_of_members (members : list (string * JsValue)) : list (string * JsValue) :=
  fold_left (fun o kv => define_property (fst kv) (snd kv) o) members [].

Fixpoint parse_value (fuel : nat) (s : string) {struct fuel} : option (JsValue * string) :=
  match fuel with
  | O => None
  | S fuel' =>
      match skip_ws s with
      | EmptyString => None
      | String c r =>
          if (c =? "n")%char then option_map (pair JsNull) (expect "ull" r)
          else if (c =? "t")%char then option_map (pair (JsBool true)) (expect "rue" r)
          else if (c =? "f")%char then option_map (pair (JsBool false)) (expect "alse" r)
          else if (c =? dquote)%char then
            match read_string r with
            | Some (str, rest) => Some (JsString str, rest)
            | None => None
            end
          else if (c =? "[")%char then
            match skip_ws r with
            | EmptyString => None
            | String c' rest =>
                if (c' =? "]")%char then Some (JsArray [], rest)
                else match parse_elements fuel' r with
                     | Some (l, rest') => Some (JsArray l, rest')
                     | None => None
                     end
            end
          else if (c =? "{")%char then
            match skip_ws r with
            | EmptyString => None
            | String c' rest =>
                if (c' =? "}")%char then Some (JsObject [], rest)
                else match parse_members fuel' r with
                     | Some (ms, rest') => Some (JsObject (object_of_members ms), rest')
                     | None => None
                     end
            end
          else read_number (String c r)
      end
  end
with parse_elements (fuel : nat) (s : string) {struct fuel} : option (list JsValue * string) :=
  match fuel with
  | O => None
  | S fuel' =>
      match parse_value fuel' s with
      | None => None
      | Some (v, r) =>
          match skip_ws r with
          | String c r' =>
              if (c =? ",")%char then
                match parse_elements fuel' r' with
                | Some (vs, rest) => Some (v :: vs, rest)
                | None => None
                end
              else if (c =? "]")%char then Some ([v], r')
              else None
          | EmptyString => None
          end
      end
  end
with parse_members (fuel : nat) (s : string) {struct fuel}
  : option (list (string * JsValue) * string) :=
  match fuel with
  | O => None
  | S fuel' =>
      match skip_ws s with
      | String q r =>
          if (q =? dquote)%char then
            match read_string r with
            | None => None
            | Some (k, r1) =>
                match skip_ws r1 with
                | EmptyString => None
                | String colon r2 =>
                    if (colon =? ":")%char then
                      match parse_value fuel' r2 with
                      | None => None
                      | Some (v, r3) =>
                          match skip_ws r3 with
                          | String c r4 =>
                              if (c =? ",")%char then
                                match parse_members fuel' r4 with
                                | Some (ms, rest) => Some ((k, v) :: ms, rest)
                                | None => None
                                end
                              else if (c =? "}")%char then Some ([(k, v)], r4)
                              else None
                          | EmptyString => None
                          end
                      end
                    else None
                end
            end
          else None
      | EmptyString => None
      end
  end.

(** [JSON.parse(text)]. *)
Definition parse (text : string) : option JsValue :=
  match parse_value (S (String.length text)) text with
  | Some (v, rest) =>
      match skip_ws rest with
      | EmptyString => Some v
      | _ => None
      end
  | None => None
  end.

End JSON.

(* ================================================================== *)
(** ** The runtime around the loader: console, network, exceptions *)
(* ================================================================== *)

Module Runtime.
Import JS.

(** An outbound HTTP request as handed to [fetch]. *)
Record Request : Type := {
  url : string;
  method : string;
  headers : list (string * string);
  body : JsValue
}.

(** An HTTP response: its status, and what reading the body as text or as
    JSON settles to (a value, or a rejection). *)
Record Response : Type := {
  status : Z;
  text : Completion string;
  json : Completion JsValue
}.

(** [response.ok]: a status in the range 200-299. *)
Definition ok (r : Response) : bool :=
  (200 <=? status r) && (status r <=? 299).

(** What the external agent does with a request: after [elapsed]
    milliseconds the call settles, with a response or with a transport
    failure. *)
Record Reply : Type := {
  elapsed : Z;
  outcome : Completion Response
}.

Inductive ConsoleArg : Type :=
| Text (s : string)
| Value (v : JsValue)
| Caught (e : Thrown).

Inductive ConsoleEntry : Type :=
| LogEntry (args : list ConsoleArg)
| ErrorEntry (args : list ConsoleArg).

(** The world a state-load runs in: the external agent, the console
    written so far, and the requests sent so far. *)
Record World : Type := {
  agent : Request -> Reply;
  console : list ConsoleEntry;
  outbound : list Request
}.

(** Computations that read and write the world and may throw; the effects
    made before a throw stay. *)
Definition M (A : Type) : Type := World -> Completion A * World.

Definition ret {A} (a : A) : M A := fun w => (Normal a, w).

Definition mbind {A B} (c : M A) (k : A -> M B) : M B :=
  fun w => match c w with
           | (Normal a, w') => k a w'
           | (Throw e, w') => (Throw e, w')
           end.

(** Settling of an awaited value, or evaluation of a pure expression. *)
Definition lift {A} (c : Completion A) : M A := fun w => (c, w).

Definition try_catch_M {A} (body : M A) (handler : Thrown -> M A) : M A :=
  fun w => match body w with
           | (Normal a, w') => (Normal a, w')
           | (Throw e, w') => handler e w'
           end.

Definition console_log (args : list ConsoleArg) : M unit :=
  fun w => (Normal tt, {| agent := agent w;
                          console := console w ++ [LogEntry args];
                          outbound := outbound w |}).

Definition console_error (args : list ConsoleArg) : M unit :=
  fun w => (Normal tt, {| agent := agent w;
                          console := console w ++ [ErrorEntry args];
                          outbound := outbound w |}).

Definition AbortError : Thrown := ErrorObject "AbortError" "This operation was aborted".

(** The largest delay a timer takes: 2^31 - 1 milliseconds. *)
Definition TIMEOUT_MAX : Z := 2147483647.

(** The delay [setTimeout(callback, delay)] arms its timer with: a delay
    below 1 or above [TIMEOUT_MAX] is replaced by 1 millisecond. *)
Definition timer_delay (delay : Z) : Z :=
  if (delay <? 1) || (TIMEOUT_MAX <? delay) then 1 else delay.

(** [await fetch(url, {..., signal})] with the abort timer armed by
    [setTimeout(() => controller.abort(), timeoutMs)]: the request goes out
    once; if the timer fires before the call settles the promise rejects
    with an AbortError, otherwise the timer is cleared and the call's own
    outcome is delivered. *)
Definition fetch (request : Request) (timeoutMs : Z) : M Response :=
  fun w =>
    let reply := agent w request in
    (if timer_delay timeoutMs <=? elapsed reply then Throw AbortError else outcome reply,
     {| agent := agent w;
        console := console w;
        outbound := outbound w ++ [request] |}).

End Runtime.

Declare Scope js_scope.
Delimit Scope js_scope with js.
Notation "x <- c ;; k" := (Runtime.mbind c (fun x => k))
  (at level 61, c at next level, right associativity) : js_scope.
Notation "c ;; k" := (Runtime.mbind c (fun _ => k))
  (at level 61, right associativity) : js_scope.
Notation "'let!' x := c 'in' k" := (JS.bind c (fun x => k))
  (at level 61, x name, c at next level, right associativity) : js_scope.

(* ================================================================== *)
(** ** agent-state-loader.ts *)
(* ================================================================== *)

Module AgentState.
(** [interface AgentState].  The fields hold whatever the agent's JSON
    carried: the declared types are not checked at run time. *)
Record t : Type := {
  messages : JS.JsValue;
  state : JS.JsValue
}.
End AgentState.

Module LoadStateResponse.
(** [interface LoadStateResponse]; [messages] and [state] hold the results
    of [JSON.stringify]. *)
Record t : Type := {
  threadId : string;
  threadExists : bool;
  messages : JS.JsValue;
  state : JS.JsValue
}.
End LoadStateResponse.

Module Loader.
Import JS Runtime.
Local Open Scope js_scope.

(** Detects if the request is a loadAgentState GraphQL query:
    [body && typeof body === 'object' && body.operationName === 'loadAgentState']. *)
Definition isLoadAgentStateQuery (body : JsValue) : Completion JsValue :=
  let! is_object := js_and body (Normal (JsBool (String.eqb (typeof body) "object"))) in
  js_and is_object
         (let! operationName := get body "operationName" in
          Normal (JsBool (strict_eq_string operationName "loadAgentState"))).

(** [body?.variables?.data?.<field> || null], inside [try]/[catch]. *)
Definition extractField (field : string) (body : JsValue) : Completion JsValue :=
  try_catch
    (let! variables := get_opt body "variables" in
     let! data := get_opt variables "data" in
     let! value := get_opt data field in
     Normal (js_or value JsNull))
    (fun _ => Normal JsNull).

(** Extracts threadId from GraphQL loadAgentState query. *)
Definition extractThreadId (body : JsValue) : Completion JsValue :=
  extractField "threadId" body.

(** Extracts agentName from GraphQL loadAgentState query. *)
Definition extractAgentName (body : JsValue) : Completion JsValue :=
  extractField "agentName" body.

(** [agentUrl.replace(/\/$/, '')]: drops one slash at the very end. *)
Fixpoint replace_trailing_slash (s : string) : string :=
  match s with
  | EmptyString => EmptyString
  | String c EmptyString => if (c =? "/")%char then EmptyString else s
  | String c r => String c (replace_trailing_slash r)
  end.

(** [{ messages: [], state: {} }]. *)
Definition emptyState : AgentState.t :=
  {| AgentState.messages := JsArray []; AgentState.state := JsObject [] |}.

(** [error instanceof Error && error.name === 'AbortError']. *)
Definition is_abort (error : Thrown) : bool :=
  match error with
  | ErrorObject name _ => String.eqb name "AbortError"
  | ThrownValue _ => false
  end.

(** A parameter with a default value: the default stands in when the
    argument is left out. *)
Definition default_parameter {A} (given : option A) (default : A) : A :=
  match given with
  | Some a => a
  | None => default
  end.

(** Loads agent state from the FastAPI backend using the custom
    /load_state endpoint ([timeoutMs: number = 5000]). *)
Definition loadStateFromAgent (agentUrl threadId : string) (timeoutMs : option Z)
  : M AgentState.t :=
  let timeoutMs := default_parameter timeoutMs 5000 in
  console_log [Text ("[StateLoader] Fetching state for thread: " ++ threadId)] ;;
  try_catch_M
    (let loadStateUrl := replace_trailing_slash agentUrl ++ "/load_state" in
     let requestBody := JsObject [("threadId", JsString threadId)] in
     console_log [Text ("[StateLoader] Calling " ++ loadStateUrl)] ;;
     console_log [Text "[StateLoader] Request body:";
                  Value (JSON.stringify_indented requestBody 2)] ;;
     response <- fetch {| url := loadStateUrl;
                          method := "POST";
                          headers := [("Content-Type", "application/json")];
                          body := JSON.stringify requestBody |} timeoutMs ;;
     if negb (ok response) then
       errorText <- lift (text response) ;;
       console_error [Text ("[StateLoader] Agent responded with " ++
                            Number_toString (Finite (status response)))] ;;
       console_error [Text "[StateLoader] Error details:"; Value (JsString errorText)] ;;
       ret emptyState
     else
       data <- lift (json response) ;;
       console_log [Text "[StateLoader] Received response:"; Value data] ;;
       count <- lift (let! messages := get data "messages" in get messages "length") ;;
       console_log [Text ("[StateLoader] Extracted " ++ ToString count ++ " messages")] ;;
       messages <- lift (get data "messages") ;;
       state <- lift (get data "state") ;;
       ret {| AgentState.messages := js_or messages (JsArray []);
              AgentState.state := js_or state (JsObject []) |})
    (fun error =>
       (if is_abort error
        then console_error [Text ("[StateLoader] Timeout fetching state for " ++ threadId)]
        else console_error [Text "[StateLoader] Error fetching state:"; Caught error]) ;;
       ret emptyState).

Section Composer.

(** The numeric-literal reader that [>] falls back on when its operand is
    not a number.  The length of an array or of a string is a number, so
    it is only consulted when [messages] is an object with a [length]
    property of its own. *)
Variable StringToNumber : string -> JsNumber.

(** Creates a GraphQL response for loadAgentState. *)
Definition createLoadStateResponse (threadId : string) (agentState : AgentState.t)
  : Completion LoadStateResponse.t :=
  let! length := get (AgentState.messages agentState) "length" in
  let threadExists := js_gt StringToNumber length (Finite 0) in
  Normal {| LoadStateResponse.threadId := threadId;
            LoadStateResponse.threadExists := threadExists;
            LoadStateResponse.messages := JSON.stringify (AgentState.messages agentState);
            LoadStateResponse.state := JSON.stringify (AgentState.state agentState) |}.

End Composer.

End Loader.

(* ================================================================== *)
(** ** Auxiliary notions used to state the properties *)
(* ================================================================== *)

Module Spec.
Import JS Runtime.

(** Structural induction on values, through arrays and objects. *)
Fixpoint JsValue_ind
  (P : JsValue -> Prop)
  (Hundefined : P JsUndefined)
  (Hnull : P JsNull)
  (Hbool : forall b, P (JsBool b))
  (Hnum : forall n, P (JsNum n))
  (Hstring : forall s, P (JsString s))
  (Harray : forall l, Forall P l -> P (JsArray l))
  (Hobject : forall o, Forall (fun kv => P (snd kv)) o -> P (JsObject o))
  (v : JsValue) {struct v} : P v :=
  let rec := JsValue_ind P Hundefined Hnull Hbool Hnum Hstring Harray Hobject in
  match v with
  | JsUndefined => Hundefined
  | JsNull => Hnull
  | JsBool b => Hbool b
  | JsNum n => Hnum n
  | JsString s => Hstring s
  | JsArray l =>
      Harray l ((fix all (l : list JsValue) : Forall P l :=
                   match l with
                   | [] => Forall_nil P
                   | e :: l' => Forall_cons e (rec e) (all l')
                   end) l)
  | JsObject o =>
      Hobject o ((fix all (o : list (string * JsValue))
                    : Forall (fun kv => P (snd kv)) o :=
                    match o with
                    | [] => Forall_nil _
                    | kv :: o' => Forall_cons kv (rec (snd kv)) (all o')
                    end) o)
  end.

(** The value a JSON text of [v] denotes: what survives serialization.
    [None] when [v] has no JSON text. *)
Fixpoint image (v : JsValue) : option JsValue :=
  match v with
  | JsUndefined => None
  | JsNum (Finite z) => Some (JsNum (Finite z))
  | JsNum _ => Some JsNull
  | JsNull => Some JsNull
  | JsBool b => Some (JsBool b)
  | JsString s => Some (JsString s)
  | JsArray l =>
      Some (JsArray (map (fun e => match image e with
                                   | Some j => j
                                   | None => JsNull
                                   end) l))
  | JsObject o =>
      Some (JsObject
              (JSON.object_of_members
                 (flat_map (fun kv => let '(k, e) := kv in
                              match image e with
                              | Some j => [(k, j)]
                              | None => []
                              end) o)))
  end.

(** An array element without a JSON text is serialized as [null]. *)
Definition element_image (e : JsValue) : JsValue :=
  match image e with
  | Some j => j
  | None => JsNull
  end.

(** Values as [JSON.parse] builds them: no [undefined], only finite
    numbers, and objects whose properties are in enumeration order without
    repeated keys. *)
Fixpoint json_data (v : JsValue) : Prop :=
  match v with
  | JsUndefined => False
  | JsNull | JsBool _ | JsString _ => True
  | JsNum (Finite _) => True
  | JsNum _ => False
  | JsArray l => fold_right (fun e acc => json_data e /\ acc) True l
  | JsObject o =>
      JSON.object_of_members o = o /\
      fold_right (fun kv acc => json_data (snd kv) /\ acc) True o
  end.

(** The value found by following own properties along [path], if every
    step of the path is present. *)
Fixpoint value_at (path : list string) (v : JsValue) : option JsValue :=
  match path with
  | [] => Some v
  | key :: path' =>
      match own_property v key with
      | Some x => value_at path' x
      | None => None
      end
  end.

(** Whether the last character of [s] is a slash. *)
Fixpoint ends_with_slash (s : string) : bool :=
  match s with
  | EmptyString => false
  | String c EmptyString => (c =? "/")%char
  | String _ r => ends_with_slash r
  end.

(** The request a state-load hands to [fetch]. *)
Definition load_state_request (agentUrl threadId : string) : Request :=
  {| url := Loader.replace_trailing_slash agentUrl ++ "/load_state";
     method := "POST";
     headers := [("Content-Type", "application/json")];
     body := JSON.stringify (JsObject [("threadId", JsString threadId)]) |}.

(** The ways the outbound call can fail: the abort timer, armed with
    [timeoutMs], fires first, the transport fails, the agent answers with a
    non-success status, or the body of a successful answer does not parse. *)
Inductive call_fails (timeoutMs : Z) (reply : Reply) : Prop :=
| timed_out : timer_delay timeoutMs <= elapsed reply -> call_fails timeoutMs reply
| transport_failure : forall e,
    outcome reply = Throw e -> call_fails timeoutMs reply
| non_success_status : forall r,
    outcome reply = Normal r -> ok r = false -> call_fails timeoutMs reply
| parse_failure : forall r e,
    outcome reply = Normal r -> ok r = true -> json r = Throw e ->
    call_fails timeoutMs reply.

(** The state a load settles to, read off the agent's reply alone. *)
Definition settled_state (timeoutMs : Z) (reply : Reply) : AgentState.t :=
  if timer_delay timeoutMs <=? elapsed reply then Loader.emptyState
  else match outcome reply with
       | Throw _ => Loader.emptyState
       | Normal r =>
           if negb (ok r) then Loader.emptyState
           else match json r with
                | Throw _ => Loader.emptyState
                | Normal data =>
                    match bind (get data "messages") (fun m => get m "length"),
                          get data "messages", get data "state" with
                    | Normal _, Normal m, Normal s =>
                        {| AgentState.messages := js_or m (JsArray []);
                           AgentState.state := js_or s (JsObject []) |}
                    | _, _, _ => Loader.emptyState
                    end
                end
       end.

(** *** Notions used by the round-trip proof *)

(** The text an array element contributes. *)
Definition elem_text (e : JsValue) : string :=
  match JSON.serialize e with
  | Some t => t
  | None => "null"
  end.

(** The text an object property contributes, if any. *)
Definition member_text (kv : string * JsValue) : list string :=
  match JSON.serialize (snd kv) with
  | Some t => [JSON.QuoteJSONString (fst kv) ++ ":" ++ t]
  | None => []
  end.

(** The texts of an array and of an object without indentation. *)
Definition array_text (l : list JsValue) : string :=
  JSON.wrap "[" "]" EmptyString EmptyString (map elem_text l).

Definition object_text (o : list (string * JsValue)) : string :=
  JSON.wrap "{" "}" EmptyString EmptyString (flat_map member_text o).

Definition member_image (kv : string * JsValue) : list (string * JsValue) :=
  match image (snd kv) with
  | Some j => [(fst kv, j)]
  | None => []
  end.

(** What may follow a value inside a text: nothing, or a separator or
    closing bracket. *)
Definition delimited (rest : string) : bool :=
  match rest with
  | EmptyString => true
  | String c _ => ((c =? ",") || (c =? "]") || (c =? "}"))%char
  end.

Definition number_start (c : ascii) : bool :=
  match digit_of_char c with
  | Some _ => true
  | None => (c =? "-")%char
  end.

Definition value_start (c : ascii) : bool :=
  negb (JSON.is_ws c) && negb (c =? "]")%char && negb (c =? "}")%char.

(** Reading back the text of a value, followed by a delimiter. *)
Definition reads_back (v : JsValue) : Prop :=
  forall t, JSON.serialize v = Some t ->
  forall fuel rest,
    (String.length t < fuel)%nat -> delimited rest = true ->
    JSON.parse_value fuel (t ++ rest) = Some (element_image v, rest).

Definition element_reads_back (e : JsValue) : Prop :=
  forall fuel rest,
    (String.length (elem_text e) < fuel)%nat -> delimited rest = true ->
    JSON.parse_value fuel (elem_text e ++ rest) = Some (element_image e, rest).

End Spec.

(* ================================================================== *)
(** ** Sample payloads, states and agents *)
(* ================================================================== *)

Module Samples.
Import JS Runtime.

Definition user_message : JsValue :=
  JsObject [("id", JsString "m1"); ("role", JsString "user");
            ("content", JsString "Hello"); ("createdAt", JsNum (Finite 1700000000))].

Definition assistant_message : JsValue :=
  JsObject [("id", JsString "m2"); ("role", JsString "assistant");
            ("content", JsString "Hi, how can I help?")].

Definition conversation : list JsValue := [user_message; assistant_message].

(** A loadAgentState payload whose identifiers are empty strings. *)
Definition blank_query : JsValue :=
  JsObject [("operationName", JsString "loadAgentState");
            ("variables",
             JsObject [("data", JsObject [("threadId", JsString EmptyString);
                                          ("agentName", JsString EmptyString)])])].

Definition world_of (a : Request -> Reply) : World :=
  {| agent := a; console := []; outbound := [] |}.

(** An agent that cannot be reached. *)
Definition unreachable_agent : Request -> Reply :=
  fun _ => {| elapsed := 3;
              outcome := Throw (ErrorObject "TypeError" "fetch failed") |}.

(** A response whose body is the JSON text of [data]. *)
Definition json_response (code : Z) (data : JsValue) : Response :=
  {| status := code;
     text := Normal (ToString (JSON.stringify data));
     json := Normal data |}.

(** An agent that answers 200 with a body that carries a state but no
    messages. *)
Definition stateful_agent : Request -> Reply :=
  fun _ => {| elapsed := 20;
              outcome := Normal (json_response 200
                (JsObject [("state", JsObject [("counter", JsNum (Finite 1))])])) |}.

(** An agent that answers with the conversation, after [delay]
    milliseconds. *)
Definition conversing_agent (delay : Z) : Request -> Reply :=
  fun _ => {| elapsed := delay;
              outcome := Normal (json_response 200
                (JsObject [("messages", JsArray conversation);
                           ("state", JsObject [])])) |}.

End Samples.

(* ================================================================== *)
(** ** Helpers of the end-to-end chat test *)
(* ================================================================== *)

Module TestHelpers.
Import JS Loader.

(** [text.slice(start, end)] for integer arguments; [end] defaults to the
    length of the text.  Negative positions count from the end. *)
Definition slice (text : string) (start : Z) (finish : option Z) : string :=
  let len := Z.of_nat (String.length text) in
  let from := if start <? 0 then Z.max (len + start) 0 else Z.min start len in
  let finish := default_parameter finish len in
  let to := if finish <? 0 then Z.max (len + finish) 0 else Z.min finish len in
  if to <=? from then EmptyString
  else String.substring (Z.to_nat from) (Z.to_nat (to - from)) text.

(** [function snippet(text: string, length = 80)]. *)
Definition snippet (text : string) (length : option Z) : string :=
  let length := default_parameter length 80 in
  if Z.of_nat (String.length text) <=? length then text
  else slice text 0 (Some length).

(** [uniqueMessage(prefix)]; [now] is the reading of [Date.now()] and
    [random] the text of [Math.random().toString(16)], both taken from the
    environment. *)
Definition uniqueMessage (prefix : string) (now : Z) (random : string) : string :=
  prefix ++ " " ++ Number_toString (Finite now) ++ "-" ++ slice random 2 None.

End TestHelpers.

(* ================================================================== *)
(** ** Further sample agents *)
(* ================================================================== *)

Module Scenarios.
Import JS Runtime.

(** An agent whose answer carries the number 0 in place of the messages,
    next to a state. *)
Definition zero_messages_agent : Request -> Reply :=
  fun _ => {| elapsed := 20;
              outcome := Normal (Samples.json_response 200
                (JsObject [("messages", JsNum (Finite 0));
                           ("state", JsObject [("counter", JsNum (Finite 1))])])) |}.


(** An agent that answers with the conversation and a state. *)
Definition stateful_conversing_agent : Request -> Reply :=
  fun _ => {| elapsed := 40;
              outcome := Normal (Samples.json_response 200
                (JsObject [("messages", JsArray Samples.conversation);
                           ("state", JsObject [("counter", JsNum (Finite 1))])])) |}.

End Scenarios.

(* ================================================================== *)
(** ** Values beyond JSON data: BigInt *)
(* ================================================================== *)

(** [AgentState.state] is declared [Record<string, any>], and a message
    carries an index signature of type [any]: both may hold a BigInt, for
    which [JSON.stringify] throws a TypeError.  This module widens the
    values of module [JS] with BigInt primitives and gives
    [createLoadStateResponse] over them, with the exception that
    [JSON.stringify] may raise threaded through; [embed] shows the values
    of [JS] among the wide ones. *)
Module Wide.
Import JS.
Local Open Scope js_scope.

#[local] Unset Elimination Schemes.
Inductive Value : Type :=
| WUndefined
| WNull
| WBool (b : bool)
| WNum (n : JsNumber)
| WString (s : string)
| WBigInt (z : Z)
| WArray (elements : list Value)
| WObject (properties : list (string * Value)).
#[local] Set Elimination Schemes.

(** Structural induction on wide values, through arrays and objects. *)
Fixpoint Value_ind
  (P : Value -> Prop)
  (Hundefined : P WUndefined)
  (Hnull : P WNull)
  (Hbool : forall b, P (WBool b))
  (Hnum : forall n, P (WNum n))
  (Hstring : forall s, P (WString s))
  (Hbigint : forall z, P (WBigInt z))
  (Harray : forall l, Forall P l -> P (WArray l))
  (Hobject : forall o, Forall (fun kv => P (snd kv)) o -> P (WObject o))
  (v : Value) {struct v} : P v :=
  let rec :=
    Value_ind P Hundefined Hnull Hbool Hnum Hstring Hbigint Harray Hobject in
  match v with
  | WUndefined => Hundefined
  | WNull => Hnull
  | WBool b => Hbool b
  | WNum n => Hnum n
  | WString s => Hstring s
  | WBigInt z => Hbigint z
  | WArray l =>
      Harray l ((fix all (l : list Value) : Forall P l :=
                   match l with
                   | [] => Forall_nil P
                   | e :: l' => Forall_cons e (rec e) (all l')
                   end) l)
  | WObject o =>
      Hobject o ((fix all (o : list (string * Value))
                    : Forall (fun kv => P (snd kv)) o :=
                    match o with
                    | [] => Forall_nil _
                    | kv :: o' => Forall_cons kv (rec (snd kv)) (all o')
                    end) o)
  end.

(** A value of module [JS], seen as a wide value. *)
Fixpoint embed (v : JsValue) : Value :=
  match v with
  | JsUndefined => WUndefined
  | JsNull => WNull
  | JsBool b => WBool b
  | JsNum n => WNum n
  | JsString s => WString s
  | JsArray l => WArray (map embed l)
  | JsObject o => WObject (map (fun kv => (fst kv, embed (snd kv))) o)
  end.

(** Whether a BigInt occurs in a value: the value itself, an element of an
    array or the value of a property, at any depth. *)
Fixpoint holds_bigint (v : Value) : bool :=
  match v with
  | WBigInt _ => true
  | WArray l => existsb holds_bigint l
  | WObject o => existsb (fun kv => holds_bigint (snd kv)) o
  | _ => false
  end.

Fixpoint assoc (key : string) (o : list (string * Value)) : option Value :=
  match o with
  | [] => None
  | (k, v) :: o' => if String.eqb k key then Some v else assoc key o'
  end.

(** Own property lookup.  A BigInt, like a number or a boolean, has no own
    property. *)
Definition own_property (v : Value) (key : string) : option Value :=
  match v with
  | WObject o => assoc key o
  | WArray l =>
      if String.eqb key "length" then Some (WNum (Finite (Z.of_nat (List.length l))))
      else match array_index key with
           | Some i => nth_error l (N.to_nat i)
           | None => None
           end
  | WString s =>
      if String.eqb key "length" then Some (WNum (Finite (Z.of_nat (String.length s))))
      else match array_index key with
           | Some i => option_map (fun c => WString (String c EmptyString))
                                  (String.get (N.to_nat i) s)
           | None => None
           end
  | _ => None
  end.

(** [v.key]. *)
Definition get (v : Value) (key : string) : Completion Value :=
  match v with
  | WUndefined => Throw (TypeError "Cannot read properties of undefined")
  | WNull => Throw (TypeError "Cannot read properties of null")
  | _ => Normal (match own_property v key with
                 | Some x => x
                 | None => WUndefined
                 end)
  end.

(** BigInt::toString: every decimal digit, whatever the size. *)
Definition BigInt_toString (z : Z) : string :=
  match z with
  | Z0 => "0"
  | Zpos p => digits_of_N (Npos p)
  | Zneg p => String "-" (digits_of_N (Npos p))
  end.

(** ToString. *)
Fixpoint ToString (v : Value) : string :=
  match v with
  | WUndefined => "undefined"
  | WNull => "null"
  | WBool true => "true"
  | WBool false => "false"
  | WNum n => Number_toString n
  | WString s => s
  | WBigInt z => BigInt_toString z
  | WArray l =>
      join "," (map (fun e => match e with
                              | WUndefined | WNull => EmptyString
                              | _ => ToString e
                              end) l)
  | WObject _ => "[object Object]"
  end.

(** [z > n] for a BigInt [z] and a number [n]: the two are compared by
    their mathematical values, and nothing is greater than NaN. *)
Definition bigint_gt (z : Z) (n : JsNumber) : bool :=
  match n with
  | NaN | PosInfinity => false
  | NegInfinity => true
  | Finite y => y <? z
  end.

Section Coercions.

Variable StringToNumber : string -> JsNumber.

(** [v > n] for a number [n]: a BigInt is compared as it is, any other
    value through ToNumber (arrays and objects through their string
    form). *)
Definition js_gt (v : Value) (n : JsNumber) : bool :=
  match v with
  | WBigInt z => bigint_gt z n
  | WUndefined => number_lt n NaN
  | WNull => number_lt n (Finite 0)
  | WBool b => number_lt n (Finite (if b then 1 else 0))
  | WNum m => number_lt n m
  | WString s => number_lt n (StringToNumber s)
  | WArray _ | WObject _ => number_lt n (StringToNumber (ToString v))
  end.

End Coercions.

(** SerializeJSONProperty without a replacer and without indentation.  The
    elements of an array and the properties of an object are serialized in
    order; the first BigInt met throws. *)
Fixpoint SerializeJSONProperty (v : Value) {struct v} : Completion (option string) :=
  match v with
  | WUndefined => Normal None
  | WNull => Normal (Some "null")
  | WBool true => Normal (Some "true")
  | WBool false => Normal (Some "false")
  | WNum (Finite z) => Normal (Some (Number_toString (Finite z)))
  | WNum _ => Normal (Some "null")
  | WString s => Normal (Some (JSON.QuoteJSONString s))
  | WBigInt _ => Throw (TypeError "Do not know how to serialize a BigInt")
  | WArray l =>
      let! partial :=
        (fix elements (l : list Value) : Completion (list string) :=
           match l with
           | [] => Normal []
           | e :: l' =>
               let! text := SerializeJSONProperty e in
               let! rest := elements l' in
               Normal (match text with
                       | Some t => t
                       | None => "null"
                       end :: rest)
           end) l in
      Normal (Some (JSON.wrap "[" "]" EmptyString EmptyString partial))
  | WObject o =>
      let! partial :=
        (fix members (o : list (string * Value)) : Completion (list string) :=
           match o with
           | [] => Normal []
           | (k, e) :: o' =>
               let! text := SerializeJSONProperty e in
               let! rest := members o' in
               Normal (match text with
                       | Some t => (JSON.QuoteJSONString k ++ ":" ++ t) :: rest
                       | None => rest
                       end)
           end) o in
      Normal (Some (JSON.wrap "{" "}" EmptyString EmptyString partial))
  end.

(** The texts that the elements of an array contribute, in order. *)
Definition array_partial (l : list Value) : Completion (list string) :=
  (fix elements (l : list Value) : Completion (list string) :=
     match l with
     | [] => Normal []
     | e :: l' =>
         let! text := SerializeJSONProperty e in
         let! rest := elements l' in
         Normal (match text with
                 | Some t => t
                 | None => "null"
                 end :: rest)
     end) l.

(** The texts that the properties of an object contribute, in order. *)
Definition object_partial (o : list (string * Value)) : Completion (list string) :=
  (fix members (o : list (string * Value)) : Completion (list string) :=
     match o with
     | [] => Normal []
     | (k, e) :: o' =>
         let! text := SerializeJSONProperty e in
         let! rest := members o' in
         Normal (match text with
                 | Some t => (JSON.QuoteJSONString k ++ ":" ++ t) :: rest
                 | None => rest
                 end)
     end) o.

(** What [JSON.stringify] throws on a BigInt. *)
Definition cannot_serialize_bigint : Thrown :=
  TypeError "Do not know how to serialize a BigInt".

(** [JSON.stringify(v)]. *)
Definition stringify (v : Value) : Completion JsValue :=
  let! text := SerializeJSONProperty v in
  Normal (match text with
          | Some s => JsString s
          | None => JsUndefined
          end).

(** [interface AgentState] over wide values. *)
Record AgentState : Type := {
  messages : Value;
  state : Value
}.

Definition embed_state (agentState : AgentState.t) : AgentState :=
  {| messages := embed (AgentState.messages agentState);
     state := embed (AgentState.state agentState) |}.

Section Composer.

Variable StringToNumber : string -> JsNumber.

(** Creates a GraphQL response for loadAgentState. *)
Definition createLoadStateResponse (threadId : string) (agentState : AgentState)
  : Completion LoadStateResponse.t :=
  let! length := get (messages agentState) "length" in
  let threadExists := js_gt StringToNumber length (Finite 0) in
  let! messagesText := stringify (messages agentState) in
  let! stateText := stringify (state agentState) in
  Normal {| LoadStateResponse.threadId := threadId;
            LoadStateResponse.threadExists := threadExists;
            LoadStateResponse.messages := messagesText;
            LoadStateResponse.state := stateText |}.

End Composer.

End Wide.

(* ================================================================== *)
(** ** Facts about JSON texts *)
(* ================================================================== *)

Module JSONFacts.
Import JS JSON Spec.

(** Case analysis on the 256 code units. *)
Ltac each_code_unit c := destruct c as [[] [] [] [] [] [] [] []].

Lemma append_assoc (a b c : string) : (a ++ b) ++ c = a ++ (b ++ c).
Proof. induction a as [|x a IH]; simpl; [reflexivity | now rewrite IH]. Qed.

Lemma append_nil_r (a : string) : a ++ EmptyString = a.
Proof. induction a as [|x a IH]; simpl; [reflexivity | now rewrite IH]. Qed.

Lemma length_append (a b : string) :
  String.length (a ++ b) = (String.length a + String.length b)%nat.
Proof. induction a as [|x a IH]; simpl; [reflexivity | now rewrite IH]. Qed.

(** Reading back one quoted code unit. *)
Lemma read_string_quote_char (c : ascii) (tail : string) :
  read_string (quote_char c ++ tail) = cons_char c (read_string tail).
Proof.
  each_code_unit c; reflexivity.
Qed.

Lemma read_string_quote_body (s rest : string) :
  read_string (quote_body s ++ String dquote rest) = Some (s, rest).
Proof.
  induction s as [|c s IH]; simpl.
  - reflexivity.
  - rewrite append_assoc, read_string_quote_char, IH. reflexivity.
Qed.

Lemma delimited_no_digit rest :
  delimited rest = true -> read_digits rest = (Nil, rest).
Proof.
  destruct rest as [|c r]; simpl; [reflexivity|].
  each_code_unit c; simpl; intros H;
    try discriminate H; reflexivity.
Qed.

Lemma delimited_integer_ends rest :
  delimited rest = true -> integer_ends rest = true.
Proof.
  destruct rest as [|c r]; simpl; [reflexivity|].
  each_code_unit c; simpl; intros H;
    try discriminate H; reflexivity.
Qed.

Lemma read_digits_string_of_uint d rest :
  delimited rest = true ->
  read_digits (NilEmpty.string_of_uint d ++ rest) = (d, rest).
Proof.
  intros Hrest. induction d; simpl; try (rewrite IHd; reflexivity).
  now apply delimited_no_digit.
Qed.

Lemma canonical_unorm d : unorm d = d -> canonical_digits d = true.
Proof.
  destruct d; simpl; try reflexivity.
  - discriminate.
  - intros H. destruct d; try reflexivity;
    exfalso;
    match type of H with
    | unorm (D0 ?x) = _ =>
        assert (Hn : x <> Nil) by discriminate;
        pose proof (nb_digits_unorm x Hn) as Hle;
        rewrite unorm_D0 in H; rewrite H in Hle; simpl in Hle; lia
    end.
Qed.

Lemma to_uint_canonical n : canonical_digits (N.to_uint n) = true.
Proof.
  apply canonical_unorm.
  rewrite <- (DecimalN.Unsigned.to_of (N.to_uint n)).
  now rewrite DecimalN.Unsigned.of_to.
Qed.

Lemma digits_of_N_start n :
  exists c r, digits_of_N n = String c r /\ digit_of_char c <> None.
Proof.
  unfold digits_of_N. pose proof (to_uint_canonical n) as Hc.
  destruct (N.to_uint n); simpl in *; try discriminate Hc;
    eexists; eexists; (split; [reflexivity | discriminate]).
Qed.

Lemma digit_is_not_minus c : digit_of_char c <> None -> (c =? "-")%char = false.
Proof. each_code_unit c; intros H; try reflexivity; now contradiction H. Qed.

Lemma read_canonical_digits n rest :
  delimited rest = true ->
  read_digits (digits_of_N n ++ rest) = (N.to_uint n, rest) /\
  canonical_digits (N.to_uint n) && integer_ends rest = true.
Proof.
  intros Hrest. split.
  - now apply read_digits_string_of_uint.
  - now rewrite to_uint_canonical, delimited_integer_ends.
Qed.

Lemma read_number_unsigned n rest :
  delimited rest = true ->
  read_number (digits_of_N n ++ rest) = Some (JsNum (Finite (Z.of_N n)), rest).
Proof.
  intros Hrest. destruct (read_canonical_digits n rest Hrest) as [Hread Hcanon].
  destruct (digits_of_N_start n) as (c & r & Hc & Hdigit).
  unfold read_number. rewrite Hc in *. cbn [append] in *.
  rewrite (digit_is_not_minus c Hdigit), Hread, Hcanon.
  now rewrite DecimalN.Unsigned.of_to.
Qed.

Lemma read_number_negative n rest :
  delimited rest = true ->
  read_number (String "-" (digits_of_N n ++ rest))
  = Some (JsNum (Finite (- Z.of_N n)), rest).
Proof.
  intros Hrest. destruct (read_canonical_digits n rest Hrest) as [Hread Hcanon].
  unfold read_number. rewrite Ascii.eqb_refl, Hread, Hcanon.
  now rewrite DecimalN.Unsigned.of_to.
Qed.

Lemma read_number_toString z rest :
  delimited rest = true ->
  read_number (Number_toString (Finite z) ++ rest) = Some (JsNum (Finite z), rest).
Proof.
  intros Hrest. destruct z as [|p|p]; simpl Number_toString.
  - apply (read_number_unsigned 0 rest Hrest).
  - apply (read_number_unsigned (Npos p) rest Hrest).
  - apply (read_number_negative (Npos p) rest Hrest).
Qed.

Lemma number_text_start z :
  exists c r, Number_toString (Finite z) = String c r /\ number_start c = true.
Proof.
  assert (Hd : forall n, exists c r, digits_of_N n = String c r /\ number_start c = true).
  { intros n. unfold digits_of_N. pose proof (to_uint_canonical n) as Hc.
    destruct (N.to_uint n); simpl in *; try discriminate; eauto. }
  destruct z as [|p|p]; simpl.
  - exists "0"%char, EmptyString. split; reflexivity.
  - apply Hd.
  - exists "-"%char, (digits_of_N (Npos p)). split; reflexivity.
Qed.

Lemma parse_value_number fuel c r :
  number_start c = true ->
  parse_value (S fuel) (String c r) = read_number (String c r).
Proof.
  each_code_unit c; intros H; try discriminate H; reflexivity.
Qed.

Lemma serialize_array l :
  serialize (JsArray l)
  = Some (array_text l).
Proof. reflexivity. Qed.

Lemma serialize_object o :
  serialize (JsObject o)
  = Some (object_text o).
Proof.
  unfold serialize, object_text. simpl. do 2 f_equal.
  induction o as [|[k e] o IH]; simpl; [reflexivity|].
  rewrite IH. unfold member_text, serialize. simpl.
  destruct (SerializeJSONProperty EmptyString EmptyString e); reflexivity.
Qed.

Lemma image_array l : image (JsArray l) = Some (JsArray (map element_image l)).
Proof. reflexivity. Qed.

Lemma image_object o :
  image (JsObject o) = Some (JsObject (object_of_members (flat_map member_image o))).
Proof.
  simpl. do 3 f_equal. induction o as [|[k e] o IH]; simpl; [reflexivity|].
  rewrite IH. unfold member_image. simpl. destruct (image e); reflexivity.
Qed.

Lemma serialize_none v :
  serialize v = None -> v = JsUndefined.
Proof.
  destruct v as [| |[]|[]| | |]; simpl; intros H; try discriminate H; reflexivity.
Qed.

Lemma image_none v : image v = None -> v = JsUndefined.
Proof.
  destruct v as [| |[]|[]| | |]; simpl; intros H; try discriminate H; reflexivity.
Qed.

Lemma wrap_nonempty opening closing p ps :
  wrap opening closing EmptyString EmptyString (p :: ps) = opening ++ join "," (p :: ps) ++ closing.
Proof. reflexivity. Qed.

Lemma join_cons2 sep p q ps : join sep (p :: q :: ps) = p ++ sep ++ join sep (q :: ps).
Proof. reflexivity. Qed.

Lemma elem_text_start e :
  exists c r, elem_text e = String c r /\ value_start c = true.
Proof.
  unfold elem_text.
  destruct e as [| |[]|[| | |z]|s|l|o].
  8:{ destruct (number_text_start z) as (c & r & Hc & Hs).
      change (serialize (JsNum (Finite z))) with (Some (Number_toString (Finite z))).
      cbv beta iota. rewrite Hc. exists c, r. split; [reflexivity|].
      each_code_unit c; try discriminate Hs; reflexivity. }
  9:{ rewrite serialize_array. unfold array_text. destruct (map elem_text l);
        eexists; eexists; split; reflexivity. }
  9:{ rewrite serialize_object. unfold object_text. destruct (flat_map member_text o);
        eexists; eexists; split; reflexivity. }
  all: eexists; eexists; split; reflexivity.
Qed.

Lemma skip_ws_start c r : value_start c = true -> skip_ws (String c r) = String c r.
Proof.
  unfold value_start. simpl. destruct (is_ws c); [discriminate|reflexivity].
Qed.

Lemma value_start_not_closing c :
  value_start c = true -> (c =? "]")%char = false.
Proof.
  each_code_unit c; intros H; try discriminate H; reflexivity.
Qed.

Lemma reads_back_element e : reads_back e -> element_reads_back e.
Proof.
  intros H fuel rest Hfuel Hrest. unfold elem_text in *.
  destruct (serialize e) as [t|] eqn:Ht.
  - now apply H.
  - apply serialize_none in Ht. subst e.
    destruct fuel; [inversion Hfuel | reflexivity].
Qed.

Lemma parse_elements_texts l :
  l <> [] -> Forall reads_back l ->
  forall fuel rest,
    (String.length (join "," (map elem_text l)) + 1 < fuel)%nat ->
    parse_elements fuel (join "," (map elem_text l) ++ String "]" rest)
    = Some (map element_image l, rest).
Proof.
  induction l as [|e l IH]; [congruence|].
  intros _ Hall fuel rest Hfuel.
  inversion Hall as [|? ? He Hl]; subst.
  apply reads_back_element in He.
  destruct fuel as [|fuel]; [inversion Hfuel|].
  destruct l as [|e2 l].
  - simpl map in *. simpl join in *. simpl parse_elements.
    rewrite (He fuel (String "]" rest)); [reflexivity | lia | reflexivity].
  - change (map elem_text (e :: e2 :: l))
      with (elem_text e :: elem_text e2 :: map elem_text l) in *.
    rewrite join_cons2 in *.
    specialize (IH ltac:(discriminate) Hl fuel rest).
    change (elem_text e2 :: map elem_text l) with (map elem_text (e2 :: l)) in *.
    remember (join "," (map elem_text (e2 :: l))) as J eqn:HJ.
    rewrite !length_append in Hfuel. simpl in Hfuel.
    rewrite !append_assoc. simpl parse_elements.
    rewrite (He fuel (String "," (J ++ String "]" rest))); [| lia | reflexivity].
    simpl. rewrite IH by lia. reflexivity.
Qed.

Lemma member_text_nil_image o :
  flat_map member_text o = [] -> flat_map member_image o = [].
Proof.
  induction o as [|[k e] o IH]; simpl; [reflexivity|].
  unfold member_text at 1, member_image at 1. simpl.
  destruct (serialize e) eqn:Ht; [discriminate|].
  apply serialize_none in Ht. subst e. simpl. exact IH.
Qed.

Lemma quoted_member k t tail :
  (QuoteJSONString k ++ ":" ++ t) ++ tail
  = String dquote (quote_body k ++ String dquote (String ":" (t ++ tail))).
Proof.
  unfold QuoteJSONString. simpl. rewrite !append_assoc. simpl. reflexivity.
Qed.

Lemma parse_member k e t fuel tail :
  serialize e = Some t ->
  reads_back e ->
  (String.length t < fuel)%nat -> delimited tail = true ->
  parse_members (S fuel) ((QuoteJSONString k ++ ":" ++ t) ++ tail)
  = match skip_ws tail with
    | String c r4 =>
        if (c =? ",")%char then
          match parse_members fuel r4 with
          | Some (ms, rest) => Some ((k, element_image e) :: ms, rest)
          | None => None
          end
        else if (c =? "}")%char then Some ([(k, element_image e)], r4)
        else None
    | EmptyString => None
    end.
Proof.
  intros Ht He Hfuel Htail. rewrite quoted_member.
  cbn [parse_members].
  change (skip_ws (String dquote ?x)) with (String dquote x).
  cbv iota. rewrite Ascii.eqb_refl.
  rewrite read_string_quote_body.
  change (skip_ws (String ":" ?x)) with (String ":" x). cbv iota.
  rewrite (He t Ht fuel tail Hfuel Htail). reflexivity.
Qed.

Lemma member_text_pair k e :
  member_text (k, e)
  = match serialize e with
    | Some t => [QuoteJSONString k ++ ":" ++ t]
    | None => []
    end.
Proof. reflexivity. Qed.

Lemma member_image_pair k e :
  member_image (k, e)
  = match image e with
    | Some j => [(k, j)]
    | None => []
    end.
Proof. reflexivity. Qed.

Lemma parse_members_texts o :
  Forall (fun kv => reads_back (snd kv)) o ->
  flat_map member_text o <> [] ->
  forall fuel rest,
    (String.length (join "," (flat_map member_text o)) + 1 < fuel)%nat ->
    parse_members fuel (join "," (flat_map member_text o) ++ String "}" rest)
    = Some (flat_map member_image o, rest).
Proof.
  induction o as [|[k e] o IH]; [simpl; congruence|].
  intros Hall Hne fuel rest Hfuel.
  inversion Hall as [|? ? He Ho]; subst. simpl in He.
  change (flat_map member_text ((k, e) :: o))
    with ((member_text (k, e) ++ flat_map member_text o)%list) in *.
  change (flat_map member_image ((k, e) :: o))
    with ((member_image (k, e) ++ flat_map member_image o)%list).
  rewrite member_text_pair in *. rewrite member_image_pair.
  destruct (serialize e) as [t|] eqn:Ht.
  2:{ apply serialize_none in Ht. subst e. simpl. now apply IH. }
  assert (Himg : image e = Some (element_image e)).
  { unfold element_image. destruct (image e) eqn:Hi; [reflexivity|].
    apply image_none in Hi. subst e. discriminate Ht. }
  rewrite Himg.
  change (([?m] ++ ?l)%list) with (m :: l) in *.
  destruct fuel as [|fuel]; [inversion Hfuel|].
  destruct (flat_map member_text o) as [|m ms] eqn:Hms.
  - rewrite (member_text_nil_image o Hms).
    cbn [join] in *. rewrite length_append in Hfuel. simpl in Hfuel.
    rewrite (parse_member k e t fuel (String "}" rest) Ht He); [reflexivity | lia | reflexivity].
  - specialize (IH Ho ltac:(discriminate) fuel rest).
    rewrite join_cons2 in *.
    remember (join "," (m :: ms)) as J eqn:HJ.
    rewrite !length_append in Hfuel. simpl in Hfuel.
    replace ((QuoteJSONString k ++ ":" ++ t) ++ "," ++ J)
      with ((QuoteJSONString k ++ ":" ++ t) ++ String "," J) by reflexivity.
    rewrite append_assoc.
    change (String "," J ++ String "}" rest) with (String "," (J ++ String "}" rest)).
    rewrite (parse_member k e t fuel (String "," (J ++ String "}" rest)) Ht He);
      [| lia | reflexivity].
    simpl. rewrite IH by lia. reflexivity.
Qed.

(** Every value with a JSON text reads back as its image. *)
Lemma parse_value_serialize v : reads_back v.
Proof.
  induction v as [| |b|n|s|l IH|o IH] using Spec.JsValue_ind;
    intros t Ht fuel rest Hfuel Hrest;
    (destruct fuel as [|fuel]; [inversion Hfuel|]).
  - discriminate Ht.
  - injection Ht as <-. reflexivity.
  - destruct b; injection Ht as <-; reflexivity.
  - destruct n as [| | |z]; try (injection Ht as <-; reflexivity).
    assert (Ht' : t = Number_toString (Finite z))
      by (change (serialize (JsNum (Finite z)))
            with (Some (Number_toString (Finite z))) in Ht; congruence).
    clear Ht. subst t.
    destruct (number_text_start z) as (c & r & Hc & Hs).
    pose proof (read_number_toString z rest Hrest) as Hread.
    rewrite Hc in *. simpl append in *.
    rewrite parse_value_number by assumption. exact Hread.
  - injection Ht as <-. unfold QuoteJSONString. simpl append.
    rewrite append_assoc. simpl append.
    cbn [parse_value]. change (skip_ws (String dquote ?x)) with (String dquote x).
    cbv iota. change ((dquote =? "n")%char) with false.
    change ((dquote =? "t")%char) with false. change ((dquote =? "f")%char) with false.
    rewrite Ascii.eqb_refl. cbv iota.
    rewrite read_string_quote_body. reflexivity.
  - rewrite serialize_array in Ht. injection Ht as <-.
    unfold array_text in *. unfold element_image. rewrite image_array.
    destruct l as [|e l]; [reflexivity|].
    change (map elem_text (e :: l)) with (elem_text e :: map elem_text l) in *.
    rewrite wrap_nonempty in *.
    change (elem_text e :: map elem_text l) with (map elem_text (e :: l)) in *.
    remember (join "," (map elem_text (e :: l))) as J eqn:HJ.
    simpl in Hfuel. rewrite length_append in Hfuel. simpl in Hfuel.
    replace (("[" ++ J ++ "]") ++ rest) with (String "[" (J ++ String "]" rest))
      by (simpl; now rewrite append_assoc).
    pose proof (parse_elements_texts (e :: l) ltac:(discriminate) IH fuel rest) as Hel.
    rewrite <- HJ in Hel.
    assert (HJs : exists c r, J = String c r /\ value_start c = true).
    { destruct (elem_text_start e) as (c & r & Hc & Hs).
      subst J. simpl map. destruct (map elem_text l); simpl; rewrite Hc; simpl; eauto. }
    destruct HJs as (c & r & HJc & Hs).
    cbn [parse_value]. change (skip_ws (String "[" ?x)) with (String "[" x).
    cbv iota. simpl Ascii.eqb. cbv iota.
    rewrite HJc at 1. simpl append at 1.
    rewrite skip_ws_start by assumption.
    rewrite value_start_not_closing by assumption.
    rewrite Hel by lia. reflexivity.
  - rewrite serialize_object in Ht. injection Ht as <-.
    unfold object_text in *. unfold element_image. rewrite image_object.
    destruct (flat_map member_text o) as [|m ms] eqn:Hms.
    + rewrite (member_text_nil_image o Hms). reflexivity.
    + rewrite wrap_nonempty in *.
      pose proof (parse_members_texts o IH ltac:(rewrite Hms; discriminate) fuel rest) as Hmem.
      rewrite Hms in Hmem.
      remember (join "," (m :: ms)) as J eqn:HJ.
      simpl in Hfuel. rewrite length_append in Hfuel. simpl in Hfuel.
      replace (("{" ++ J ++ "}") ++ rest) with (String "{" (J ++ String "}" rest))
        by (simpl; now rewrite append_assoc).
      assert (HJs : exists r, J = String dquote r).
      { assert (Hm : exists r, m = String dquote r).
        { clear -Hms. induction o as [|[k e] o IHo]; [discriminate|].
          simpl in Hms. unfold member_text at 1 in Hms. simpl in Hms.
          destruct (serialize e).
          - injection Hms as <- _. unfold QuoteJSONString. simpl. eauto.
          - auto. }
        destruct Hm as (r & ->). subst J. destruct ms; simpl; eauto. }
      destruct HJs as (r & HJc).
      cbn [parse_value]. change (skip_ws (String "{" ?x)) with (String "{" x).
      cbv iota. simpl Ascii.eqb. cbv iota.
      rewrite HJc at 1. simpl append at 1.
      change (skip_ws (String dquote ?x)) with (String dquote x). cbv iota.
      rewrite Hmem by lia. reflexivity.
Qed.


(** [JSON.parse] inverts [JSON.stringify] up to what serialization keeps. *)
Theorem parse_stringify v t :
  serialize v = Some t -> JSON.parse t = image v.
Proof.
  intros Ht. unfold parse.
  pose proof (parse_value_serialize v t Ht (S (String.length t)) EmptyString
                ltac:(lia) eq_refl) as H.
  rewrite append_nil_r in H. rewrite H. simpl.
  unfold element_image. destruct (image v) eqn:Hi; [reflexivity|].
  apply image_none in Hi. subst v. discriminate Ht.
Qed.

(** Parsed data is a fixed point of serialization. *)
Lemma image_json_data v : json_data v -> image v = Some v.
Proof.
  induction v as [| |b|n|s|l IH|o IH] using Spec.JsValue_ind; simpl; intros H;
    try reflexivity; try contradiction.
  - destruct n; try contradiction; reflexivity.
  - do 2 f_equal. induction l as [|e l IHl]; simpl; [reflexivity|].
    inversion IH as [|? ? He Hl]; subst. destruct H as [H1 H2].
    rewrite (He H1), (IHl Hl H2). reflexivity.
  - destruct H as [Hcanon H]. do 2 f_equal.
    rewrite <- Hcanon at 2. f_equal.
    clear Hcanon. induction o as [|[k e] o IHo]; simpl; [reflexivity|].
    inversion IH as [|? ? He Ho]; subst. destruct H as [H1 H2]. simpl in *.
    rewrite (He H1), (IHo Ho H2). reflexivity.
Qed.

Lemma map_element_image_json_data l :
  Forall json_data l -> map element_image l = l.
Proof.
  induction 1 as [|e l He _ IH]; simpl; [reflexivity|].
  unfold element_image at 1. rewrite (image_json_data e He), IH. reflexivity.
Qed.

Lemma nth_error_map_image l i e :
  nth_error l i = Some e -> nth_error (map element_image l) i = Some (element_image e).
Proof. intros H. rewrite nth_error_map, H. reflexivity. Qed.

End JSONFacts.

(* ================================================================== *)
(** ** The response composer *)
(* ================================================================== *)

Module ComposerFacts.
Import JS JSON Spec Runtime Loader JSONFacts.

Lemma length_positive (l : list JsValue) :
  (0 <? Z.of_nat (List.length l)) = match l with [] => false | _ :: _ => true end.
Proof. destruct l; simpl; [reflexivity|]. apply Z.ltb_lt. lia. Qed.

Section Composer.

Variable StringToNumber : string -> JsNumber.

Lemma createLoadStateResponse_array threadId l st :
  createLoadStateResponse StringToNumber threadId
    {| AgentState.messages := JsArray l; AgentState.state := st |}
  = Normal {| LoadStateResponse.threadId := threadId;
              LoadStateResponse.threadExists := match l with [] => false | _ :: _ => true end;
              LoadStateResponse.messages := JsString (array_text l);
              LoadStateResponse.state := stringify st |}.
Proof.
  unfold createLoadStateResponse. cbn [AgentState.messages AgentState.state].
  unfold get, own_property. simpl String.eqb. cbn [bind].
  unfold js_gt, ToNumber, number_lt. rewrite length_positive.
  unfold stringify at 1. rewrite serialize_array. reflexivity.
Qed.

(** C1: for every AgentState whose messages field is an array,
    [createLoadStateResponse] sets [threadExists] to true exactly when the
    array is non-empty, and [threadExists] equals
    [JSON.parse(messages).length > 0] evaluated on the messages field of
    the response. *)
Theorem threadExists_iff_messages_nonempty threadId l st :
  exists r text parsed,
    createLoadStateResponse StringToNumber threadId
      {| AgentState.messages := JsArray l; AgentState.state := st |} = Normal r /\
    LoadStateResponse.threadExists r = match l with [] => false | _ :: _ => true end /\
    LoadStateResponse.messages r = JsString text /\
    JSON.parse text = Some parsed /\
    bind (get parsed "length")
         (fun n => Normal (js_gt StringToNumber n (Finite 0)))
    = Normal (LoadStateResponse.threadExists r).
Proof.
  eexists. exists (array_text l), (JsArray (map element_image l)).
  split; [apply createLoadStateResponse_array|].
  cbn [LoadStateResponse.threadExists LoadStateResponse.messages].
  split; [reflexivity|]. split; [reflexivity|].
  split.
  - rewrite (parse_stringify (JsArray l)); [apply image_array | apply serialize_array].
  - unfold get, own_property. simpl String.eqb. cbn [bind].
    unfold js_gt, ToNumber, number_lt. rewrite length_map, length_positive. reflexivity.
Qed.

(** C3: for every AgentState whose messages array has N > 0 entries, the
    response has [threadExists = true] and a messages field that
    deserializes to an array of exactly N entries, the i-th of which is
    what the i-th message serializes to; when the messages are parsed JSON
    data, the deserialized array is the fetched array itself. *)
Theorem nonempty_messages_round_trip threadId l st :
  l <> [] ->
  exists r text parsed,
    createLoadStateResponse StringToNumber threadId
      {| AgentState.messages := JsArray l; AgentState.state := st |} = Normal r /\
    LoadStateResponse.threadExists r = true /\
    LoadStateResponse.messages r = JsString text /\
    JSON.parse text = Some (JsArray parsed) /\
    List.length parsed = List.length l /\
    (forall i e, nth_error l i = Some e -> nth_error parsed i = Some (element_image e)) /\
    (Forall json_data l -> parsed = l).
Proof.
  intros Hl.
  eexists. exists (array_text l), (map element_image l).
  split; [apply createLoadStateResponse_array|].
  cbn [LoadStateResponse.threadExists LoadStateResponse.messages].
  split; [destruct l; congruence|]. split; [reflexivity|].
  split; [rewrite (parse_stringify (JsArray l)); [apply image_array | apply serialize_array]|].
  split; [apply length_map|].
  split; [intros i e; apply nth_error_map_image | apply map_element_image_json_data].
Qed.

(** The same agreement holds for whatever the loader can return in the
    messages field: any truthy parsed JSON value, array or not. *)
Lemma threadExists_agrees_on_fetched_data threadId m st :
  json_data m -> truthy m = true ->
  exists r text,
    createLoadStateResponse StringToNumber threadId
      {| AgentState.messages := m; AgentState.state := st |} = Normal r /\
    LoadStateResponse.messages r = JsString text /\
    JSON.parse text = Some m /\
    bind (get m "length")
         (fun n => Normal (js_gt StringToNumber n (Finite 0)))
    = Normal (LoadStateResponse.threadExists r).
Proof.
  intros Hdata Htruthy.
  assert (Htext : exists t, serialize m = Some t).
  { destruct (serialize m) eqn:Hs; [eauto|].
    apply serialize_none in Hs. subst m. discriminate Htruthy. }
  destruct Htext as (t & Ht).
  assert (Hlen : exists n, get m "length" = Normal n).
  { destruct m; try discriminate Htruthy; eexists; reflexivity. }
  destruct Hlen as (n & Hn).
  unfold createLoadStateResponse. cbn [AgentState.messages AgentState.state].
  rewrite Hn. cbn [bind]. eexists. exists t.
  split; [reflexivity|]. cbn [LoadStateResponse.messages LoadStateResponse.threadExists].
  unfold stringify. rewrite Ht. split; [reflexivity|].
  split; [|reflexivity].
  rewrite (parse_stringify m t Ht). now apply image_json_data.
Qed.

Lemma createLoadStateResponse_emptyState threadId :
  createLoadStateResponse StringToNumber threadId emptyState
  = Normal {| LoadStateResponse.threadId := threadId;
              LoadStateResponse.threadExists := false;
              LoadStateResponse.messages := JsString "[]";
              LoadStateResponse.state := JsString "{}" |}.
Proof. reflexivity. Qed.

End Composer.

Lemma sample_conversation_is_json_data : Forall json_data Samples.conversation.
Proof. repeat constructor. Qed.

Lemma nonempty_messages_round_trip_witness :
  Samples.conversation <> [] /\
  exists r text,
    createLoadStateResponse (fun _ => NaN) "thread-1"
      {| AgentState.messages := JsArray Samples.conversation;
         AgentState.state := JsObject [] |} = Normal r /\
    LoadStateResponse.threadExists r = true /\
    LoadStateResponse.messages r = JsString text /\
    JSON.parse text = Some (JsArray Samples.conversation).
Proof.
  assert (Hne : Samples.conversation <> []) by discriminate.
  split; [exact Hne|].
  destruct (nonempty_messages_round_trip (fun _ => NaN) "thread-1"
              Samples.conversation (JsObject []) Hne)
    as (r & text & parsed & Hr & Hex & Hm & Hp & _ & _ & Hdata).
  exists r, text. repeat split; try assumption.
  rewrite Hp, (Hdata sample_conversation_is_json_data). reflexivity.
Defined.

End ComposerFacts.

(* ================================================================== *)
(** ** The query classifier *)
(* ================================================================== *)

Module ClassifierFacts.
Import JS JSON Spec Runtime Loader.

(** What [isLoadAgentStateQuery] evaluates to: a falsy payload comes back
    as it is, any other payload gives a boolean. *)
Lemma isLoadAgentStateQuery_value body :
  isLoadAgentStateQuery body
  = Normal (if truthy body
            then JsBool (String.eqb (typeof body) "object" &&
                         match own_property body "operationName" with
                         | Some name => strict_eq_string name "loadAgentState"
                         | None => false
                         end)
            else body).
Proof.
  unfold isLoadAgentStateQuery, js_and.
  destruct (truthy body) eqn:Ht; cbn [bind]; [|rewrite Ht; reflexivity].
  destruct body as [| |b|n|s|l|o]; try discriminate Ht; try reflexivity.
  cbn -[own_property strict_eq_string].
  destruct (own_property (JsObject o) "operationName"); reflexivity.
Qed.

Lemma strict_eq_string_true v s :
  strict_eq_string v s = true <-> v = JsString s.
Proof.
  destruct v; simpl; try (split; discriminate).
  rewrite String.eqb_eq. split; [now intros -> | now intros [= ->]].
Qed.

(** The classifier never throws, and its result is truthy exactly for
    objects whose [operationName] is the string ['loadAgentState']; the
    truthy result is [true]. *)
Lemma isLoadAgentStateQuery_truthy body :
  exists r, isLoadAgentStateQuery body = Normal r /\
    (truthy r = true <->
       typeof body = "object" /\
       own_property body "operationName" = Some (JsString "loadAgentState")) /\
    (truthy r = true -> r = JsBool true).
Proof.
  eexists. split; [apply isLoadAgentStateQuery_value|].
  destruct (truthy body) eqn:Ht.
  - simpl truthy. split.
    + rewrite andb_true_iff, String.eqb_eq.
      split; intros [H1 H2]; (split; [exact H1|]).
      * destruct (own_property body "operationName") as [name|]; [|discriminate].
        apply strict_eq_string_true in H2. now subst.
      * rewrite H2. now apply strict_eq_string_true.
    + now intros ->.
  - rewrite Ht. split; [split; [discriminate|]|discriminate].
    intros [H1 H2].
    destruct body; try discriminate H1; try discriminate H2; discriminate Ht.
Qed.

Example classifies_state_load :
  isLoadAgentStateQuery Samples.blank_query = Normal (JsBool true).
Proof. reflexivity. Qed.

Example classifies_other_operation :
  isLoadAgentStateQuery (JsObject [("operationName", JsString "generateCopilotResponse")])
  = Normal (JsBool false).
Proof. reflexivity. Qed.

Example classifies_non_object :
  isLoadAgentStateQuery (JsString "loadAgentState") = Normal (JsBool false).
Proof. reflexivity. Qed.

(** C4 (evaluation at the failing input): on the payloads [null] and
    [undefined] the classifier returns the payload itself, not the boolean
    [false]. *)
Theorem isLoadAgentStateQuery_null_returns_null :
  isLoadAgentStateQuery JsNull = Normal JsNull /\
  isLoadAgentStateQuery JsUndefined = Normal JsUndefined /\
  isLoadAgentStateQuery JsNull <> Normal (JsBool false).
Proof. repeat split; discriminate. Qed.

Lemma get_opt_own_property v key :
  get_opt v key = Normal (match own_property v key with
                          | Some x => x
                          | None => JsUndefined
                          end).
Proof. destruct v; reflexivity. Qed.

Lemma extractField_value field body :
  extractField field body
  = Normal (match value_at ["variables"; "data"; field] body with
            | Some v => js_or v JsNull
            | None => JsNull
            end).
Proof.
  unfold extractField, value_at.
  rewrite (get_opt_own_property body "variables"). cbn [bind].
  destruct (own_property body "variables") as [variables|].
  2:{ reflexivity. }
  rewrite (get_opt_own_property variables "data"). cbn [bind].
  destruct (own_property variables "data") as [data|].
  2:{ reflexivity. }
  rewrite (get_opt_own_property data field). cbn [bind try_catch].
  destruct (own_property data field); reflexivity.
Qed.

(** C5 (amended): for every payload the extractors complete normally; each
    returns the value found at [variables.data.threadId] (respectively
    [variables.data.agentName]) when it is present and truthy, and [null]
    when the path is absent or the value found is falsy. *)
Theorem extractors_return_truthy_value_or_null body :
  extractThreadId body
  = Normal (match value_at ["variables"; "data"; "threadId"] body with
            | Some v => if truthy v then v else JsNull
            | None => JsNull
            end) /\
  extractAgentName body
  = Normal (match value_at ["variables"; "data"; "agentName"] body with
            | Some v => if truthy v then v else JsNull
            | None => JsNull
            end).
Proof. split; apply extractField_value. Qed.

(** C5 (as stated) fails: the empty string is present at
    [variables.data.threadId], and the extractor does not return it. *)
Lemma extractThreadId_drops_present_value :
  value_at ["variables"; "data"; "threadId"] Samples.blank_query = Some (JsString EmptyString) /\
  extractThreadId Samples.blank_query <> Normal (JsString EmptyString).
Proof. split; [reflexivity | discriminate]. Qed.

(** C9: a falsy value found at [variables.data.threadId] or
    [variables.data.agentName] (the empty string, for one) is returned as
    [null], which is also what the extractor returns for a payload where
    the path is absent: whatever consumes the extractor's result treats the
    two payloads alike. *)
Theorem falsy_identifier_extracts_as_null body missing v :
  truthy v = false ->
  (value_at ["variables"; "data"; "threadId"] body = Some v ->
   value_at ["variables"; "data"; "threadId"] missing = None ->
   extractThreadId body = Normal JsNull /\
   forall (R : Type) (route : Completion JsValue -> R),
     route (extractThreadId body) = route (extractThreadId missing)) /\
  (value_at ["variables"; "data"; "agentName"] body = Some v ->
   value_at ["variables"; "data"; "agentName"] missing = None ->
   extractAgentName body = Normal JsNull /\
   forall (R : Type) (route : Completion JsValue -> R),
     route (extractAgentName body) = route (extractAgentName missing)).
Proof.
  intros Hv. unfold extractThreadId, extractAgentName.
  split; intros Hbody Hmissing; rewrite !extractField_value, Hbody, Hmissing;
    unfold js_or; rewrite Hv; (split; [reflexivity | intros R route; reflexivity]).
Qed.

Lemma falsy_identifier_extracts_as_null_witness :
  truthy (JsString EmptyString) = false /\
  extractThreadId Samples.blank_query = Normal JsNull /\
  extractAgentName Samples.blank_query = Normal JsNull /\
  extractThreadId Samples.blank_query
  = extractThreadId (JsObject [("operationName", JsString "loadAgentState")]).
Proof.
  split; [reflexivity|].
  destruct (falsy_identifier_extracts_as_null
              Samples.blank_query
              (JsObject [("operationName", JsString "loadAgentState")])
              (JsString EmptyString) eq_refl)
    as (Hthread & Hagent).
  destruct (Hthread eq_refl eq_refl) as (Hnull & Hsame).
  destruct (Hagent eq_refl eq_refl) as (Hnull' & _).
  split; [exact Hnull|]. split; [exact Hnull'|].
  exact (Hsame _ (fun result => result)).
Defined.

End ClassifierFacts.

(* ================================================================== *)
(** ** The response composer on values that may hold a BigInt *)
(* ================================================================== *)

Module WideFacts.
Import JS JSON Spec Loader JSONFacts.
Import Wide (WUndefined, WNull, WBool, WNum, WString, WBigInt, WArray, WObject).

(** *** The values of module [JS] behave the same among the wide ones *)

Lemma assoc_embed key o :
  Wide.assoc key (map (fun kv => (fst kv, Wide.embed (snd kv))) o)
  = option_map Wide.embed (assoc key o).
Proof.
  induction o as [|[k v] o IH]; simpl; [reflexivity|].
  destruct (String.eqb k key); [reflexivity | exact IH].
Qed.

Lemma own_property_embed v key :
  Wide.own_property (Wide.embed v) key = option_map Wide.embed (own_property v key).
Proof.
  destruct v as [| |b|n|s|l|o]; cbn [Wide.embed Wide.own_property own_property];
    try reflexivity.
  - destruct (String.eqb key "length"); [reflexivity|].
    destruct (array_index key); [|reflexivity].
    destruct (String.get (N.to_nat n) s); reflexivity.
  - rewrite length_map. destruct (String.eqb key "length"); [reflexivity|].
    destruct (array_index key); [|reflexivity]. apply nth_error_map.
  - apply assoc_embed.
Qed.

Lemma get_embed v key :
  Wide.get (Wide.embed v) key = bind (get v key) (fun x => Normal (Wide.embed x)).
Proof.
  pose proof (own_property_embed v key) as H.
  destruct v as [| |b|n|s|l|o]; try reflexivity;
    cbn [Wide.embed] in *; unfold Wide.get, get; cbn [bind]; rewrite H;
    match goal with
    | |- context [own_property ?x key] => destruct (own_property x key)
    end; reflexivity.
Qed.

Lemma ToString_embed v : Wide.ToString (Wide.embed v) = ToString v.
Proof.
  induction v as [| |b|n|s|l IH|o IH] using Spec.JsValue_ind; try reflexivity.
  cbn [Wide.embed Wide.ToString ToString]. f_equal.
  induction IH as [|e l He _ IHl]; [reflexivity|].
  cbn [map]. rewrite IHl. f_equal.
  destruct e; try reflexivity; exact He.
Qed.

Lemma js_gt_embed StringToNumber v n :
  Wide.js_gt StringToNumber (Wide.embed v) n = js_gt StringToNumber v n.
Proof.
  destruct v as [| |b|m|s|l|o]; try reflexivity.
  - change (Wide.js_gt StringToNumber (Wide.embed (JsArray l)) n)
      with (number_lt n (StringToNumber (Wide.ToString (Wide.embed (JsArray l))))).
    now rewrite ToString_embed.
Qed.

Lemma array_partial_cons e l :
  Wide.array_partial (e :: l)
  = bind (Wide.SerializeJSONProperty e) (fun text =>
    bind (Wide.array_partial l) (fun rest =>
    Normal (match text with Some t => t | None => "null" end :: rest))).
Proof. reflexivity. Qed.

Lemma object_partial_cons k e o :
  Wide.object_partial ((k, e) :: o)
  = bind (Wide.SerializeJSONProperty e) (fun text =>
    bind (Wide.object_partial o) (fun rest =>
    Normal (match text with
            | Some t => (QuoteJSONString k ++ ":" ++ t) :: rest
            | None => rest
            end))).
Proof. reflexivity. Qed.

Lemma serialize_array_partial l :
  Wide.SerializeJSONProperty (WArray l)
  = bind (Wide.array_partial l) (fun partial =>
    Normal (Some (wrap "[" "]" EmptyString EmptyString partial))).
Proof. reflexivity. Qed.

Lemma serialize_object_partial o :
  Wide.SerializeJSONProperty (WObject o)
  = bind (Wide.object_partial o) (fun partial =>
    Normal (Some (wrap "{" "}" EmptyString EmptyString partial))).
Proof. reflexivity. Qed.

(** On a value of module [JS] the serializer does not throw, and gives the
    text that [JSON.serialize] gives. *)
Lemma serialize_embed v :
  Wide.SerializeJSONProperty (Wide.embed v) = Normal (serialize v).
Proof.
  induction v as [| |b|n|s|l IH|o IH] using Spec.JsValue_ind;
    try reflexivity; try (destruct b; reflexivity); try (destruct n; reflexivity).
  - cbn [Wide.embed]. rewrite serialize_array_partial, serialize_array.
    assert (H : Wide.array_partial (map Wide.embed l) = Normal (map elem_text l)).
    { induction IH as [|e l He _ IHl]; [reflexivity|].
      cbn [map]. rewrite array_partial_cons, He, IHl. reflexivity. }
    rewrite H. reflexivity.
  - cbn [Wide.embed]. rewrite serialize_object_partial, serialize_object.
    assert (H : Wide.object_partial (map (fun kv => (fst kv, Wide.embed (snd kv))) o)
                = Normal (flat_map member_text o)).
    { induction IH as [|[k e] o He _ IHo]; [reflexivity|].
      cbn [map fst snd]. rewrite object_partial_cons. cbn [snd] in He.
      rewrite He, IHo. cbn [bind flat_map].
      change (member_text (k, e))
        with (match serialize e with
              | Some t => [QuoteJSONString k ++ ":" ++ t]
              | None => []
              end).
      destruct (serialize e); reflexivity. }
    rewrite H. reflexivity.
Qed.

Lemma stringify_embed v : Wide.stringify (Wide.embed v) = Normal (stringify v).
Proof. unfold Wide.stringify, stringify. now rewrite serialize_embed. Qed.

Lemma holds_bigint_embed v : Wide.holds_bigint (Wide.embed v) = false.
Proof.
  induction v as [| |b|n|s|l IH|o IH] using Spec.JsValue_ind; try reflexivity;
    cbn [Wide.embed Wide.holds_bigint].
  - induction IH as [|e l He _ IHl]; [reflexivity|].
    cbn [map existsb]. now rewrite He, IHl.
  - induction IH as [|kv o He _ IHo]; [reflexivity|].
    cbn [map existsb snd]. now rewrite He, IHo.
Qed.

(** *** When the serializer throws *)

(** The serializer throws exactly on the values that hold a BigInt. *)
Lemma serialize_throws_on_bigint v :
  if Wide.holds_bigint v
  then Wide.SerializeJSONProperty v = Throw Wide.cannot_serialize_bigint
  else exists text, Wide.SerializeJSONProperty v = Normal text.
Proof.
  induction v as [| |b|n|s|z|l IH|o IH] using Wide.Value_ind;
    try (cbn; eexists; reflexivity); try reflexivity.
  - destruct b; cbn; eexists; reflexivity.
  - destruct n; cbn; eexists; reflexivity.
  - rewrite serialize_array_partial. cbn [Wide.holds_bigint].
    assert (H : if existsb Wide.holds_bigint l
                then Wide.array_partial l = Throw Wide.cannot_serialize_bigint
                else exists partial, Wide.array_partial l = Normal partial).
    { induction IH as [|e l He _ IHl]; [eexists; reflexivity|].
      cbn [existsb]. rewrite array_partial_cons.
      destruct (Wide.holds_bigint e); [now rewrite He|].
      destruct He as (t & ->). cbn [orb bind].
      destruct (existsb Wide.holds_bigint l); [now rewrite IHl|].
      destruct IHl as (p & ->). eexists; reflexivity. }
    destruct (existsb Wide.holds_bigint l); [now rewrite H|].
    destruct H as (p & ->). eexists; reflexivity.
  - rewrite serialize_object_partial. cbn [Wide.holds_bigint].
    assert (H : if existsb (fun kv => Wide.holds_bigint (snd kv)) o
                then Wide.object_partial o = Throw Wide.cannot_serialize_bigint
                else exists partial, Wide.object_partial o = Normal partial).
    { induction IH as [|[k e] o He _ IHo]; [eexists; reflexivity|].
      cbn [existsb snd] in *. rewrite object_partial_cons.
      destruct (Wide.holds_bigint e); [now rewrite He|].
      destruct He as (t & ->). cbn [orb bind].
      destruct (existsb (fun kv => Wide.holds_bigint (snd kv)) o); [now rewrite IHo|].
      destruct IHo as (p & ->). eexists; reflexivity. }
    destruct (existsb (fun kv => Wide.holds_bigint (snd kv)) o); [now rewrite H|].
    destruct H as (p & ->). eexists; reflexivity.
Qed.

Lemma stringify_throws_on_bigint v :
  Wide.holds_bigint v = true -> Wide.stringify v = Throw Wide.cannot_serialize_bigint.
Proof.
  intros H. pose proof (serialize_throws_on_bigint v) as Hs. rewrite H in Hs.
  unfold Wide.stringify. now rewrite Hs.
Qed.

Lemma stringify_bigint_free v :
  Wide.holds_bigint v = false -> exists result, Wide.stringify v = Normal result.
Proof.
  intros H. pose proof (serialize_throws_on_bigint v) as Hs. rewrite H in Hs.
  destruct Hs as (t & Ht). unfold Wide.stringify. rewrite Ht. eexists; reflexivity.
Qed.

Lemma stringify_normal_or_type_error v :
  (exists result, Wide.stringify v = Normal result) \/
  Wide.stringify v = Throw Wide.cannot_serialize_bigint.
Proof.
  destruct (Wide.holds_bigint v) eqn:H;
    [right; now apply stringify_throws_on_bigint
    | left; now apply stringify_bigint_free].
Qed.

Section Composer.

Variable StringToNumber : string -> JsNumber.

(** On the values of module [JS] the composer over wide values is the
    composer of module [Loader]. *)
Lemma createLoadStateResponse_embed threadId agentState :
  Wide.createLoadStateResponse StringToNumber threadId (Wide.embed_state agentState)
  = createLoadStateResponse StringToNumber threadId agentState.
Proof.
  destruct agentState as [m s].
  unfold Wide.createLoadStateResponse, createLoadStateResponse, Wide.embed_state.
  cbn [Wide.messages Wide.state AgentState.messages AgentState.state].
  rewrite get_embed. destruct (get m "length") as [n|e]; [|reflexivity].
  cbn [bind]. rewrite js_gt_embed, !stringify_embed. reflexivity.
Qed.

(** A composer run that throws, throws a TypeError. *)
Lemma createLoadStateResponse_throws_type_error threadId agentState e :
  Wide.createLoadStateResponse StringToNumber threadId agentState = Throw e ->
  exists message, e = TypeError message.
Proof.
  destruct agentState as [m s]. unfold Wide.createLoadStateResponse.
  cbn [Wide.messages Wide.state].
  destruct (Wide.get m "length") as [n|e'] eqn:Hget; cbn [bind].
  - destruct (stringify_normal_or_type_error m) as [(tm & ->) | ->]; cbn [bind].
    + destruct (stringify_normal_or_type_error s) as [(ts & ->) | ->]; cbn [bind].
      * discriminate.
      * intros [= <-]. eexists; reflexivity.
    + intros [= <-]. eexists; reflexivity.
  - intros [= <-]. destruct m; try discriminate Hget;
      injection Hget as <-; eexists; reflexivity.
Qed.

(** A composer run that completes was given messages other than
    [undefined] and [null], and no BigInt. *)
Lemma createLoadStateResponse_normal_inputs threadId agentState response :
  Wide.createLoadStateResponse StringToNumber threadId agentState = Normal response ->
  Wide.messages agentState <> WUndefined /\
  Wide.messages agentState <> WNull /\
  Wide.holds_bigint (Wide.messages agentState) = false /\
  Wide.holds_bigint (Wide.state agentState) = false.
Proof.
  destruct agentState as [m s]. unfold Wide.createLoadStateResponse.
  cbn [Wide.messages Wide.state]. intros H.
  destruct (Wide.get m "length") as [n|e] eqn:Hget; [|discriminate H].
  cbn [bind] in H.
  split; [intros ->; discriminate Hget|]. split; [intros ->; discriminate Hget|].
  destruct (Wide.holds_bigint m) eqn:Hm.
  { rewrite (stringify_throws_on_bigint m Hm) in H. discriminate H. }
  split; [reflexivity|].
  destruct (stringify_bigint_free m Hm) as (tm & Htm). rewrite Htm in H.
  cbn [bind] in H.
  destruct (Wide.holds_bigint s) eqn:Hs; [|reflexivity].
  rewrite (stringify_throws_on_bigint s Hs) in H. discriminate H.
Qed.

(** C6 (amended): for every thread id and every AgentState whose messages
    are an array and whose state is an object made of values that JSON can
    carry ([undefined], [null], booleans, numbers, strings, arrays and
    plain objects, with no BigInt), [createLoadStateResponse] completes
    normally; [threadExists] tells whether the array is non-empty, and the
    messages and state fields are JSON texts of the input's messages and
    state: parsing them gives back what the inputs serialize to, and the
    inputs themselves when these are parsed JSON data. *)
Theorem createLoadStateResponse_total_on_json_values threadId l o :
  exists messagesText stateText,
    Wide.createLoadStateResponse StringToNumber threadId
      {| Wide.messages := Wide.embed (JsArray l);
         Wide.state := Wide.embed (JsObject o) |}
    = Normal {| LoadStateResponse.threadId := threadId;
                LoadStateResponse.threadExists :=
                  match l with [] => false | _ :: _ => true end;
                LoadStateResponse.messages := JsString messagesText;
                LoadStateResponse.state := JsString stateText |} /\
    JSON.parse messagesText = image (JsArray l) /\
    JSON.parse stateText = image (JsObject o) /\
    (Forall json_data l -> JSON.parse messagesText = Some (JsArray l)) /\
    (json_data (JsObject o) -> JSON.parse stateText = Some (JsObject o)).
Proof.
  exists (array_text l), (object_text o).
  assert (Hm : JSON.parse (array_text l) = image (JsArray l))
    by (apply parse_stringify, serialize_array).
  assert (Hs : JSON.parse (object_text o) = image (JsObject o))
    by (apply parse_stringify, serialize_object).
  split.
  { change {| Wide.messages := Wide.embed (JsArray l);
              Wide.state := Wide.embed (JsObject o) |}
      with (Wide.embed_state {| AgentState.messages := JsArray l;
                                AgentState.state := JsObject o |}).
    rewrite createLoadStateResponse_embed,
      ComposerFacts.createLoadStateResponse_array.
    unfold stringify. now rewrite serialize_object. }
  split; [exact Hm|]. split; [exact Hs|]. split.
  - intros Hl. rewrite Hm, image_array, map_element_image_json_data by assumption.
    reflexivity.
  - intros Ho. rewrite Hs. now apply image_json_data.
Qed.

End Composer.

(** C6 (as stated) fails: on an AgentState whose state holds a BigInt,
    [{messages: [], state: {n: 10n}}], [createLoadStateResponse] does not
    return a response: [JSON.stringify] throws a TypeError. *)
Lemma createLoadStateResponse_throws_on_bigint_state :
  (exists message,
     Wide.createLoadStateResponse (fun _ => NaN) "thread-1"
       {| Wide.messages := WArray [];
          Wide.state := WObject [("n", WBigInt 10)] |}
     = Throw (TypeError message)) /\
  (forall response,
     Wide.createLoadStateResponse (fun _ => NaN) "thread-1"
       {| Wide.messages := WArray [];
          Wide.state := WObject [("n", WBigInt 10)] |}
     <> Normal response).
Proof. split; [eexists; reflexivity | discriminate]. Qed.

Example composes_state_without_bigint :
  Wide.createLoadStateResponse (fun _ => NaN) "thread-1"
    {| Wide.messages := WArray [];
       Wide.state := WObject [("n", WNum (Finite 10))] |}
  = Normal {| LoadStateResponse.threadId := "thread-1";
              LoadStateResponse.threadExists := false;
              LoadStateResponse.messages := JsString "[]";
              LoadStateResponse.state := JsString ("{" ++ QuoteJSONString "n" ++ ":10}") |}.
Proof. reflexivity. Qed.

End WideFacts.

(* ================================================================== *)
(** ** The state fetch client *)
(* ================================================================== *)

Module FetchFacts.
Import JS JSON Spec Runtime Loader JSONFacts.

(** A run of the loader, summarized: it completes normally with the state
    read off the agent's reply, leaves the agent as it was, and hands
    exactly one request to [fetch]. *)
Lemma loadStateFromAgent_run agentUrl threadId timeoutMs w :
  exists w',
    loadStateFromAgent agentUrl threadId timeoutMs w
    = (Normal (settled_state (default_parameter timeoutMs 5000)
                             (agent w (load_state_request agentUrl threadId))), w') /\
    agent w' = agent w /\
    outbound w' = (outbound w ++ [load_state_request agentUrl threadId])%list.
Proof.
  unfold loadStateFromAgent, settled_state, try_catch_M, mbind, console_log,
    console_error, fetch, lift, ret.
  cbn [agent console outbound].
  change {| url := replace_trailing_slash agentUrl ++ "/load_state";
            method := "POST";
            headers := [("Content-Type", "application/json")];
            body := stringify (JsObject [("threadId", JsString threadId)]) |}
    with (load_state_request agentUrl threadId).
  destruct (agent w (load_state_request agentUrl threadId)) as [el out].
  cbn [elapsed outcome].
  destruct (timer_delay (default_parameter timeoutMs 5000) <=? el).
  { destruct (is_abort AbortError); eexists; repeat split. }
  destruct out as [r|e].
  2:{ destruct (is_abort e); eexists; repeat split. }
  destruct (negb (ok r)).
  { destruct (text r) as [txt|e]; [|destruct (is_abort e)]; eexists; repeat split. }
  destruct (json r) as [data|e].
  2:{ destruct (is_abort e); eexists; repeat split. }
  destruct (get data "messages") as [m|e] eqn:Hm; cbn [bind].
  2:{ destruct (is_abort e); eexists; repeat split. }
  destruct (get m "length") as [n|e] eqn:Hn.
  2:{ destruct (is_abort e); eexists; repeat split. }
  destruct (get data "state") as [s|e] eqn:Hs.
  2:{ destruct (is_abort e); eexists; repeat split. }
  eexists; repeat split.
Qed.

(** The loader never throws to its caller. *)
Lemma loadStateFromAgent_never_throws agentUrl threadId timeoutMs w :
  exists agentState w',
    loadStateFromAgent agentUrl threadId timeoutMs w = (Normal agentState, w').
Proof.
  destruct (loadStateFromAgent_run agentUrl threadId timeoutMs w) as (w' & H & _).
  eauto.
Qed.

Lemma settled_state_call_fails timeoutMs reply :
  call_fails timeoutMs reply -> settled_state timeoutMs reply = emptyState.
Proof.
  unfold settled_state. intros [Hlate | e He | r Hr Hok | r e Hr Hok Hjson].
  - apply Z.leb_le in Hlate. now rewrite Hlate.
  - rewrite He. now destruct (timer_delay timeoutMs <=? elapsed reply).
  - rewrite Hr, Hok. now destruct (timer_delay timeoutMs <=? elapsed reply).
  - rewrite Hr, Hok, Hjson. now destruct (timer_delay timeoutMs <=? elapsed reply).
Qed.

(** The timer keeps to the requested delay when the delay is one it can
    take, and never waits longer than requested otherwise. *)
Lemma timer_delay_in_range delay :
  1 <= delay <= TIMEOUT_MAX -> timer_delay delay = delay.
Proof.
  intros [Hlow Hhigh]. unfold timer_delay.
  apply Z.ltb_ge in Hlow, Hhigh. now rewrite Hlow, Hhigh.
Qed.

Lemma timer_delay_out_of_range delay :
  delay < 1 \/ TIMEOUT_MAX < delay -> timer_delay delay = 1.
Proof.
  intros [H | H]; unfold timer_delay; apply Z.ltb_lt in H; rewrite H;
    [reflexivity | now rewrite orb_true_r].
Qed.

Lemma timer_delay_bounds delay : 1 <= timer_delay delay <= TIMEOUT_MAX.
Proof.
  unfold timer_delay, TIMEOUT_MAX.
  destruct (delay <? 1) eqn:Hlow; [cbn; lia|].
  destruct (2147483647 <? delay) eqn:Hhigh; [cbn; lia|].
  apply Z.ltb_ge in Hlow, Hhigh. cbn. lia.
Qed.

(** A successful answer that beats the abort timer and carries a messages
    array is returned as fetched. *)
Lemma loadStateFromAgent_success agentUrl threadId timeoutMs w r data l s :
  elapsed (agent w (load_state_request agentUrl threadId))
    < timer_delay (default_parameter timeoutMs 5000) ->
  outcome (agent w (load_state_request agentUrl threadId)) = Normal r ->
  ok r = true ->
  json r = Normal data ->
  get data "messages" = Normal (JsArray l) ->
  get data "state" = Normal s ->
  exists w',
    loadStateFromAgent agentUrl threadId timeoutMs w
    = (Normal {| AgentState.messages := JsArray l;
                 AgentState.state := js_or s (JsObject []) |}, w').
Proof.
  intros Hfast Hr Hok Hjson Hm Hs.
  destruct (loadStateFromAgent_run agentUrl threadId timeoutMs w) as (w' & H & _).
  exists w'. rewrite H. do 2 f_equal. unfold settled_state.
  apply Z.leb_gt in Hfast. rewrite Hfast, Hr, Hok, Hjson, Hm, Hs. reflexivity.
Qed.

Example prompt_agent_is_heard :
  fst (loadStateFromAgent "http://localhost:8000" "thread-1" None
         (Samples.world_of (Samples.conversing_agent 40)))
  = Normal {| AgentState.messages := JsArray Samples.conversation;
              AgentState.state := JsObject [] |}.
Proof. reflexivity. Qed.

Example slow_agent_times_out :
  let run := loadStateFromAgent "http://localhost:8000" "thread-1" None
               (Samples.world_of (Samples.conversing_agent 6000)) in
  fst run = Normal emptyState /\
  last (console (snd run)) (LogEntry [])
  = ErrorEntry [Text "[StateLoader] Timeout fetching state for thread-1"].
Proof. split; reflexivity. Qed.

Example patient_caller_is_answered :
  fst (loadStateFromAgent "http://localhost:8000" "thread-1" (Some 10000)
         (Samples.world_of (Samples.conversing_agent 6000)))
  = Normal {| AgentState.messages := JsArray Samples.conversation;
              AgentState.state := JsObject [] |}.
Proof. reflexivity. Qed.

(** A timeout beyond what a timer takes is cut to one millisecond: the
    agent that answers after 40 ms is not awaited. *)
Example over_range_timeout_aborts_at_once :
  let run := loadStateFromAgent "http://localhost:8000" "thread-1" (Some 2147483648)
               (Samples.world_of (Samples.conversing_agent 40)) in
  fst run = Normal emptyState /\
  last (console (snd run)) (LogEntry [])
  = ErrorEntry [Text "[StateLoader] Timeout fetching state for thread-1"].
Proof. split; reflexivity. Qed.

Example largest_timeout_is_honoured :
  fst (loadStateFromAgent "http://localhost:8000" "thread-1" (Some 2147483647)
         (Samples.world_of (Samples.conversing_agent 40)))
  = Normal {| AgentState.messages := JsArray Samples.conversation;
              AgentState.state := JsObject [] |}.
Proof. reflexivity. Qed.

Section WithComposer.

Variable StringToNumber : string -> JsNumber.

(** End to end: the messages of a successful answer reach the response in
    the order the agent sent them. *)
Lemma fetched_messages_reach_the_response agentUrl threadId timeoutMs w r data l s :
  elapsed (agent w (load_state_request agentUrl threadId))
    < timer_delay (default_parameter timeoutMs 5000) ->
  outcome (agent w (load_state_request agentUrl threadId)) = Normal r ->
  ok r = true ->
  json r = Normal data ->
  get data "messages" = Normal (JsArray l) ->
  get data "state" = Normal s ->
  Forall json_data l ->
  exists w' agentState response text,
    loadStateFromAgent agentUrl threadId timeoutMs w = (Normal agentState, w') /\
    createLoadStateResponse StringToNumber threadId agentState = Normal response /\
    LoadStateResponse.threadExists response
    = match l with [] => false | _ :: _ => true end /\
    LoadStateResponse.messages response = JsString text /\
    JSON.parse text = Some (JsArray l).
Proof.
  intros Hfast Hr Hok Hjson Hm Hs Hdata.
  destruct (loadStateFromAgent_success agentUrl threadId timeoutMs w r data l s
              Hfast Hr Hok Hjson Hm Hs) as (w' & Hload).
  exists w'. eexists. eexists. eexists.
  split; [exact Hload|].
  split; [apply ComposerFacts.createLoadStateResponse_array|].
  cbn [LoadStateResponse.threadExists LoadStateResponse.messages].
  split; [reflexivity|]. split; [reflexivity|].
  rewrite (parse_stringify (JsArray l)) by apply serialize_array.
  rewrite image_array, map_element_image_json_data by assumption. reflexivity.
Qed.

(** C2: whenever the outbound call times out, answers with a non-success
    status, or fails in transport or in parsing, [loadStateFromAgent]
    completes normally with the empty state, and composing the empty state
    gives [{threadId, threadExists: false, messages: "[]", state: "{}"}]. *)
Theorem failed_call_yields_empty_response agentUrl threadId timeoutMs w :
  call_fails (default_parameter timeoutMs 5000)
             (agent w (load_state_request agentUrl threadId)) ->
  exists w',
    loadStateFromAgent agentUrl threadId timeoutMs w = (Normal emptyState, w') /\
    createLoadStateResponse StringToNumber threadId emptyState
    = Normal {| LoadStateResponse.threadId := threadId;
                LoadStateResponse.threadExists := false;
                LoadStateResponse.messages := JsString "[]";
                LoadStateResponse.state := JsString "{}" |}.
Proof.
  intros Hfail.
  destruct (loadStateFromAgent_run agentUrl threadId timeoutMs w) as (w' & H & _).
  exists w'. split; [|reflexivity].
  rewrite H, (settled_state_call_fails _ _ Hfail). reflexivity.
Qed.

(** C8: two state-loads in sequence for the same thread, against an agent
    that answers the same request in the same way, fetch the same state
    and compose identical responses. *)
Theorem sequential_state_loads_agree agentUrl threadId timeoutMs w :
  let first := loadStateFromAgent agentUrl threadId timeoutMs w in
  let second := loadStateFromAgent agentUrl threadId timeoutMs (snd first) in
  fst first = fst second /\
  bind (fst first) (createLoadStateResponse StringToNumber threadId)
  = bind (fst second) (createLoadStateResponse StringToNumber threadId).
Proof.
  cbv zeta.
  destruct (loadStateFromAgent_run agentUrl threadId timeoutMs w) as (w1 & H1 & Hagent & _).
  rewrite H1. cbn [fst snd].
  destruct (loadStateFromAgent_run agentUrl threadId timeoutMs w1) as (w2 & H2 & _).
  rewrite H2, Hagent. cbn [fst]. split; reflexivity.
Qed.

End WithComposer.

Lemma failed_call_yields_empty_response_witness :
  call_fails 5000
    (agent (Samples.world_of Samples.unreachable_agent)
           (load_state_request "http://localhost:8000" "thread-1")) /\
  exists w',
    loadStateFromAgent "http://localhost:8000" "thread-1" None
      (Samples.world_of Samples.unreachable_agent) = (Normal emptyState, w') /\
    createLoadStateResponse (fun _ => NaN) "thread-1" emptyState
    = Normal {| LoadStateResponse.threadId := "thread-1";
                LoadStateResponse.threadExists := false;
                LoadStateResponse.messages := JsString "[]";
                LoadStateResponse.state := JsString "{}" |}.
Proof.
  assert (Hfail : call_fails (default_parameter None 5000)
            (agent (Samples.world_of Samples.unreachable_agent)
                   (load_state_request "http://localhost:8000" "thread-1"))).
  { apply transport_failure with (e := ErrorObject "TypeError" "fetch failed").
    reflexivity. }
  split; [exact Hfail|].
  exact (failed_call_yields_empty_response (fun _ => NaN)
           "http://localhost:8000" "thread-1" None
           (Samples.world_of Samples.unreachable_agent) Hfail).
Defined.

Lemma replace_trailing_slash_spec s :
  if ends_with_slash s
  then s = replace_trailing_slash s ++ "/"
  else replace_trailing_slash s = s.
Proof.
  induction s as [|c s IH]; [reflexivity|].
  destruct s as [|c' s'].
  - simpl. destruct (Ascii.eqb_spec c "/"); [now subst | reflexivity].
  - change (ends_with_slash (String c (String c' s')))
      with (ends_with_slash (String c' s')).
    change (replace_trailing_slash (String c (String c' s')))
      with (String c (replace_trailing_slash (String c' s'))).
    destruct (ends_with_slash (String c' s')).
    + cbn [append]. f_equal. exact IH.
    + f_equal. exact IH.
Qed.

(** C7 (amended): every invocation hands exactly one request to [fetch]: a
    POST to the agent base URL with one trailing slash dropped, if it has
    one, followed by [/load_state], whose body is the JSON text of
    [{threadId}]; no second request follows. *)
Theorem loadStateFromAgent_sends_one_post agentUrl threadId timeoutMs w :
  exists result w' request text,
    loadStateFromAgent agentUrl threadId timeoutMs w = (result, w') /\
    outbound w' = (outbound w ++ [request])%list /\
    method request = "POST" /\
    url request = replace_trailing_slash agentUrl ++ "/load_state" /\
    (if ends_with_slash agentUrl
     then agentUrl = replace_trailing_slash agentUrl ++ "/"
     else replace_trailing_slash agentUrl = agentUrl) /\
    body request = JsString text /\
    JSON.parse text = Some (JsObject [("threadId", JsString threadId)]).
Proof.
  destruct (loadStateFromAgent_run agentUrl threadId timeoutMs w) as (w' & H & _ & Hout).
  eexists; exists w', (load_state_request agentUrl threadId).
  eexists. split; [exact H|]. split; [exact Hout|].
  split; [reflexivity|]. split; [reflexivity|].
  split; [apply replace_trailing_slash_spec|].
  split; [reflexivity|].
  rewrite (parse_stringify (JsObject [("threadId", JsString threadId)]));
    reflexivity.
Qed.

(** C7 (as stated) fails: for a base URL that ends with a slash, the
    request does not go to the base URL with [/load_state] appended. *)
Lemma trailing_slash_base_url_is_not_appended_to :
  map url (outbound (snd (loadStateFromAgent "http://localhost:8000/" "thread-1" None
                            (Samples.world_of Samples.unreachable_agent))))
  = ["http://localhost:8000/load_state"] /\
  "http://localhost:8000/load_state" <> "http://localhost:8000/" ++ "/load_state".
Proof. split; [reflexivity | discriminate]. Qed.

(** C10: when the call succeeds with a 2xx status and the parsed body has
    no messages ([data.messages] is [undefined] or [null]), reading
    [data.messages.length] throws, and the loader returns the empty state,
    whatever state the body carries. *)
Theorem missing_messages_discards_state agentUrl threadId timeoutMs w r data m :
  elapsed (agent w (load_state_request agentUrl threadId))
    < default_parameter timeoutMs 5000 ->
  outcome (agent w (load_state_request agentUrl threadId)) = Normal r ->
  ok r = true ->
  json r = Normal data ->
  get data "messages" = Normal m ->
  m = JsUndefined \/ m = JsNull ->
  exists e w',
    bind (get data "messages") (fun messages => get messages "length") = Throw e /\
    loadStateFromAgent agentUrl threadId timeoutMs w = (Normal emptyState, w').
Proof.
  intros Hfast Hr Hok Hjson Hm Hmissing.
  destruct (loadStateFromAgent_run agentUrl threadId timeoutMs w) as (w' & H & _).
  assert (Hthrow : exists e,
             bind (get data "messages") (fun messages => get messages "length") = Throw e).
  { rewrite Hm. destruct Hmissing as [-> | ->]; eexists; reflexivity. }
  destruct Hthrow as (e & He). exists e, w'. split; [exact He|].
  rewrite H. do 2 f_equal. unfold settled_state.
  destruct (timer_delay (default_parameter timeoutMs 5000)
            <=? elapsed (agent w (load_state_request agentUrl threadId)));
    [reflexivity|].
  rewrite Hr, Hok, Hjson, He. reflexivity.
Qed.

Lemma missing_messages_discards_state_witness :
  get (JsObject [("state", JsObject [("counter", JsNum (Finite 1))])]) "state"
  = Normal (JsObject [("counter", JsNum (Finite 1))]) /\
  exists e w',
    bind (get (JsObject [("state", JsObject [("counter", JsNum (Finite 1))])]) "messages")
         (fun messages => get messages "length") = Throw e /\
    loadStateFromAgent "http://localhost:8000" "thread-1" None
      (Samples.world_of Samples.stateful_agent) = (Normal emptyState, w').
Proof.
  split; [reflexivity|].
  apply (missing_messages_discards_state "http://localhost:8000" "thread-1" None
           (Samples.world_of Samples.stateful_agent)
           (Samples.json_response 200
              (JsObject [("state", JsObject [("counter", JsNum (Finite 1))])]))
           (JsObject [("state", JsObject [("counter", JsNum (Finite 1))])])
           JsUndefined).
  - reflexivity.
  - reflexivity.
  - reflexivity.
  - reflexivity.
  - reflexivity.
  - left. reflexivity.
Defined.

End FetchFacts.

(* ================================================================== *)
(** ** Further facts: the classifier and the extractors *)
(* ================================================================== *)

Module ClassifierCoverage.
Import JS JSON Spec Runtime Loader ClassifierFacts.

(** X1: on a truthy payload the classifier returns a boolean, and that
    boolean is [true] exactly when the payload is a plain object whose own
    [operationName] is the string ['loadAgentState']; arrays, strings,
    numbers and [true] are classified [false]. *)
Theorem truthy_payload_classifies_to_boolean body :
  truthy body = true ->
  exists b,
    isLoadAgentStateQuery body = Normal (JsBool b) /\
    (b = true <->
     exists o, body = JsObject o /\
               assoc "operationName" o = Some (JsString "loadAgentState")).
Proof.
  intros Ht. rewrite isLoadAgentStateQuery_value, Ht.
  eexists. split; [reflexivity|].
  rewrite andb_true_iff, String.eqb_eq. split.
  - intros [Hobj Hname].
    destruct body as [| |b|n|s|l|o]; try discriminate Hobj.
    + discriminate Ht.
    + cbn in Hname. discriminate Hname.
    + exists o. split; [reflexivity|]. simpl in Hname.
      destruct (assoc "operationName" o) as [name|]; [|discriminate].
      apply strict_eq_string_true in Hname. now subst.
  - intros (o & -> & Hname). simpl. rewrite Hname. split; reflexivity.
Qed.

Lemma truthy_payload_classifies_to_boolean_witness :
  truthy Samples.blank_query = true /\
  isLoadAgentStateQuery Samples.blank_query = Normal (JsBool true) /\
  truthy (JsArray [JsString "loadAgentState"]) = true /\
  isLoadAgentStateQuery (JsArray [JsString "loadAgentState"]) = Normal (JsBool false).
Proof.
  split; [reflexivity|].
  destruct (truthy_payload_classifies_to_boolean Samples.blank_query eq_refl)
    as (b & Hb & Hiff).
  split; [|split; reflexivity].
  rewrite Hb. f_equal. f_equal. apply Hiff.
  eexists. split; reflexivity.
Defined.

Lemma js_or_null_or_truthy v :
  js_or v JsNull = JsNull \/ truthy (js_or v JsNull) = true.
Proof.
  unfold js_or. destruct (truthy v) eqn:Hv; [right; exact Hv | left; reflexivity].
Qed.

(** X2: whatever the payload, each extractor completes normally with
    either [null] or a truthy value: never [undefined], an empty string,
    [0], [NaN] or [false]. *)
Theorem extractors_return_null_or_truthy body :
  (exists r, extractThreadId body = Normal r /\ (r = JsNull \/ truthy r = true)) /\
  (exists r, extractAgentName body = Normal r /\ (r = JsNull \/ truthy r = true)).
Proof.
  unfold extractThreadId, extractAgentName.
  split; rewrite extractField_value; eexists; (split; [reflexivity|]);
    match goal with
    | |- context [value_at ?p body] => destruct (value_at p body) as [v|]
    end;
    first [apply js_or_null_or_truthy | left; reflexivity].
Qed.

(** X3: a payload that is not a plain object has no identifiers: for
    [undefined], [null], booleans, numbers, strings and arrays both
    extractors return [null]. *)
Theorem non_object_payload_has_no_identifiers body :
  (forall o, body <> JsObject o) ->
  extractThreadId body = Normal JsNull /\ extractAgentName body = Normal JsNull.
Proof.
  intros Hbody. unfold extractThreadId, extractAgentName.
  rewrite !extractField_value.
  assert (Hnone : own_property body "variables" = None).
  { destruct body as [| |b|n|s|l|o]; try reflexivity. now contradiction (Hbody o). }
  unfold value_at. rewrite Hnone. split; reflexivity.
Qed.

Lemma non_object_payload_has_no_identifiers_witness :
  (forall o, JsArray [Samples.blank_query] <> JsObject o) /\
  extractThreadId (JsArray [Samples.blank_query]) = Normal JsNull /\
  extractAgentName (JsArray [Samples.blank_query]) = Normal JsNull.
Proof.
  assert (H : forall o, JsArray [Samples.blank_query] <> JsObject o)
    by (intros o; discriminate).
  split; [exact H|].
  exact (non_object_payload_has_no_identifiers (JsArray [Samples.blank_query]) H).
Defined.

End ClassifierCoverage.

(* ================================================================== *)
(** ** Further facts: the state fetch client *)
(* ================================================================== *)

Module FetchCoverage.
Import JS JSON Spec Runtime Loader JSONFacts FetchFacts.


Lemma get_length_of_primitive m :
  m <> JsUndefined -> m <> JsNull -> exists n, get m "length" = Normal n.
Proof. destruct m; intros H1 H2; try congruence; eexists; reflexivity. Qed.

Lemma get_other_property data key value other :
  get data key = Normal value -> exists s, get data other = Normal s.
Proof. destruct data; intros H; try discriminate H; eexists; reflexivity. Qed.

Lemma js_or_truthy v fallback : truthy fallback = true -> truthy (js_or v fallback) = true.
Proof. intros H. unfold js_or. destruct (truthy v) eqn:Hv; assumption. Qed.

Lemma settled_state_truthy timeoutMs reply :
  truthy (AgentState.messages (settled_state timeoutMs reply)) = true /\
  truthy (AgentState.state (settled_state timeoutMs reply)) = true.
Proof.
  unfold settled_state.
  destruct (timer_delay timeoutMs <=? elapsed reply); [split; reflexivity|].
  destruct (outcome reply) as [r|e]; [|split; reflexivity].
  destruct (negb (ok r)); [split; reflexivity|].
  destruct (json r) as [data|e]; [|split; reflexivity].
  destruct (bind (get data "messages") (fun m => get m "length")); [|split; reflexivity].
  destruct (get data "messages"); [|split; reflexivity].
  destruct (get data "state"); [|split; reflexivity].
  split; apply js_or_truthy; reflexivity.
Qed.

(** The console after a run in which [fetch] rejects. *)
Lemma rejected_fetch_is_logged agentUrl threadId timeoutMs w e :
  (if timer_delay (default_parameter timeoutMs 5000)
      <=? elapsed (agent w (load_state_request agentUrl threadId))
   then Throw AbortError
   else outcome (agent w (load_state_request agentUrl threadId))) = Throw e ->
  exists entries w',
    loadStateFromAgent agentUrl threadId timeoutMs w = (Normal emptyState, w') /\
    console w'
    = (console w ++ entries ++
       [if is_abort e
        then ErrorEntry [Text ("[StateLoader] Timeout fetching state for " ++ threadId)]
        else ErrorEntry [Text "[StateLoader] Error fetching state:"; Caught e]])%list.
Proof.
  intros Hfetch.
  unfold loadStateFromAgent, try_catch_M, mbind, console_log, console_error, fetch,
    lift, ret.
  cbn [agent console outbound].
  change {| url := replace_trailing_slash agentUrl ++ "/load_state";
            method := "POST";
            headers := [("Content-Type", "application/json")];
            body := stringify (JsObject [("threadId", JsString threadId)]) |}
    with (load_state_request agentUrl threadId).
  rewrite Hfetch.
  destruct (is_abort e); eexists [_; _; _]; eexists;
    (split; [reflexivity|]); cbn [console]; rewrite <- !app_assoc; reflexivity.
Qed.

(** X4: a timeout is told apart from other failures only on the console:
    when the abort timer, armed with the timeout, fires before the agent
    answers, the run ends with the error entry
    [Timeout fetching state for <threadId>] and returns the empty state. *)
Theorem timeout_is_logged_as_timeout agentUrl threadId timeoutMs w :
  timer_delay (default_parameter timeoutMs 5000)
    <= elapsed (agent w (load_state_request agentUrl threadId)) ->
  exists entries w',
    loadStateFromAgent agentUrl threadId timeoutMs w = (Normal emptyState, w') /\
    console w'
    = (console w ++ entries ++
       [ErrorEntry [Text ("[StateLoader] Timeout fetching state for " ++ threadId)]])%list.
Proof.
  intros Hlate. apply Z.leb_le in Hlate.
  destruct (rejected_fetch_is_logged agentUrl threadId timeoutMs w AbortError)
    as (entries & w' & Hrun & Hconsole).
  { now rewrite Hlate. }
  exists entries, w'. split; [exact Hrun | exact Hconsole].
Qed.

Lemma timeout_is_logged_as_timeout_witness :
  timer_delay 5000
  <= elapsed (agent (Samples.world_of (Samples.conversing_agent 6000))
                    (load_state_request "http://localhost:8000" "thread-1")) /\
  exists entries w',
    loadStateFromAgent "http://localhost:8000" "thread-1" None
      (Samples.world_of (Samples.conversing_agent 6000)) = (Normal emptyState, w') /\
    console w'
    = (entries ++
       [ErrorEntry [Text "[StateLoader] Timeout fetching state for thread-1"]])%list.
Proof.
  assert (Hlate : timer_delay (default_parameter None 5000)
                  <= elapsed (agent (Samples.world_of (Samples.conversing_agent 6000))
                                    (load_state_request "http://localhost:8000" "thread-1"))).
  { vm_compute. discriminate. }
  split; [exact Hlate|].
  exact (timeout_is_logged_as_timeout "http://localhost:8000" "thread-1" None
           (Samples.world_of (Samples.conversing_agent 6000)) Hlate).
Defined.

(** X5: a transport failure that arrives before the abort timer fires
    (the timer being armed with [setTimeout]'s delay for the timeout) and
    is not an [AbortError] is logged as [Error fetching state:] together
    with the thrown value, and the run returns the empty state. *)
Theorem transport_failure_is_logged_with_its_error agentUrl threadId timeoutMs w e :
  elapsed (agent w (load_state_request agentUrl threadId))
    < timer_delay (default_parameter timeoutMs 5000) ->
  outcome (agent w (load_state_request agentUrl threadId)) = Throw e ->
  is_abort e = false ->
  exists entries w',
    loadStateFromAgent agentUrl threadId timeoutMs w = (Normal emptyState, w') /\
    console w'
    = (console w ++ entries ++
       [ErrorEntry [Text "[StateLoader] Error fetching state:"; Caught e]])%list.
Proof.
  intros Hfast Hout Habort. apply Z.leb_gt in Hfast.
  destruct (rejected_fetch_is_logged agentUrl threadId timeoutMs w e)
    as (entries & w' & Hrun & Hconsole).
  { now rewrite Hfast. }
  rewrite Habort in Hconsole.
  exists entries, w'. split; [exact Hrun | exact Hconsole].
Qed.

Lemma transport_failure_is_logged_with_its_error_witness :
  is_abort (ErrorObject "TypeError" "fetch failed") = false /\
  exists entries w',
    loadStateFromAgent "http://localhost:8000" "thread-1" None
      (Samples.world_of Samples.unreachable_agent) = (Normal emptyState, w') /\
    console w'
    = (entries ++
       [ErrorEntry [Text "[StateLoader] Error fetching state:";
                    Caught (ErrorObject "TypeError" "fetch failed")]])%list.
Proof.
  split; [reflexivity|].
  apply (transport_failure_is_logged_with_its_error "http://localhost:8000" "thread-1"
           None (Samples.world_of Samples.unreachable_agent)
           (ErrorObject "TypeError" "fetch failed")).
  - reflexivity.
  - reflexivity.
  - reflexivity.
Defined.

(** X6: whatever the agent does, the messages and the state of the
    returned AgentState are truthy values: never [null], [undefined] or
    another falsy value. *)
Theorem returned_state_fields_are_truthy agentUrl threadId timeoutMs w :
  exists agentState w',
    loadStateFromAgent agentUrl threadId timeoutMs w = (Normal agentState, w') /\
    truthy (AgentState.messages agentState) = true /\
    truthy (AgentState.state agentState) = true.
Proof.
  destruct (loadStateFromAgent_run agentUrl threadId timeoutMs w) as (w' & H & _).
  eexists. exists w'. split; [exact H|]. apply settled_state_truthy.
Qed.



(** X8: when a successful answer arrives before the abort timer fires
    and its [messages] is present but falsy without being [null] or
    [undefined] ([0], [NaN], [false] or the empty string), reading its
    length does not throw: the messages fall back to [[]] and, unlike in
    the missing-messages case, the state of the answer is kept. *)
Theorem falsy_messages_fall_back_and_keep_state agentUrl threadId timeoutMs w r data m :
  elapsed (agent w (load_state_request agentUrl threadId))
    < timer_delay (default_parameter timeoutMs 5000) ->
  outcome (agent w (load_state_request agentUrl threadId)) = Normal r ->
  ok r = true ->
  json r = Normal data ->
  get data "messages" = Normal m ->
  truthy m = false -> m <> JsUndefined -> m <> JsNull ->
  exists s w',
    get data "state" = Normal s /\
    loadStateFromAgent agentUrl threadId timeoutMs w
    = (Normal {| AgentState.messages := JsArray [];
                 AgentState.state := if truthy s then s else JsObject [] |}, w').
Proof.
  intros Hfast Hr Hok Hjson Hm Hfalsy Hundef Hnull.
  destruct (loadStateFromAgent_run agentUrl threadId timeoutMs w) as (w' & H & _).
  destruct (get_other_property data "messages" m "state" Hm) as (s & Hs).
  destruct (get_length_of_primitive m Hundef Hnull) as (n & Hn).
  exists s, w'. split; [exact Hs|]. rewrite H. do 2 f_equal.
  unfold settled_state. apply Z.leb_gt in Hfast.
  rewrite Hfast, Hr, Hok, Hjson, Hm, Hs. cbn [negb bind]. rewrite Hn.
  unfold js_or. rewrite Hfalsy. reflexivity.
Qed.

Lemma falsy_messages_fall_back_and_keep_state_witness :
  truthy (JsNum (Finite 0)) = false /\
  exists w',
    loadStateFromAgent "http://localhost:8000" "thread-1" None
      (Samples.world_of Scenarios.zero_messages_agent)
    = (Normal {| AgentState.messages := JsArray [];
                 AgentState.state := JsObject [("counter", JsNum (Finite 1))] |}, w').
Proof.
  split; [reflexivity|].
  destruct (falsy_messages_fall_back_and_keep_state
              "http://localhost:8000" "thread-1" None
              (Samples.world_of Scenarios.zero_messages_agent)
              (Samples.json_response 200
                 (JsObject [("messages", JsNum (Finite 0));
                            ("state", JsObject [("counter", JsNum (Finite 1))])]))
              (JsObject [("messages", JsNum (Finite 0));
                         ("state", JsObject [("counter", JsNum (Finite 1))])])
              (JsNum (Finite 0))
              eq_refl eq_refl eq_refl eq_refl eq_refl eq_refl
              ltac:(discriminate) ltac:(discriminate))
    as (s & w' & Hs & Hrun).
  exists w'. rewrite Hrun. injection Hs as <-. reflexivity.
Defined.

Lemma replace_trailing_slash_of_appended_slash base :
  replace_trailing_slash (base ++ "/") = base.
Proof.
  induction base as [|c r IH]; [reflexivity|].
  change (String c r ++ "/") with (String c (r ++ "/")).
  destruct r as [|c' r'].
  - reflexivity.
  - change (String c' r' ++ "/") with (String c' (r' ++ "/")) in *.
    change (replace_trailing_slash (String c (String c' (r' ++ "/"))))
      with (String c (replace_trailing_slash (String c' (r' ++ "/")))).
    now rewrite IH.
Qed.

(** X9: a base URL written with one trailing slash behaves as the same
    base URL written without it: the two runs send the same request, log
    the same lines and return the same state. *)
Theorem one_trailing_slash_makes_no_difference base threadId timeoutMs w :
  ends_with_slash base = false ->
  loadStateFromAgent (base ++ "/") threadId timeoutMs w
  = loadStateFromAgent base threadId timeoutMs w.
Proof.
  intros Hbase. pose proof (replace_trailing_slash_spec base) as Hspec.
  rewrite Hbase in Hspec.
  unfold loadStateFromAgent.
  rewrite replace_trailing_slash_of_appended_slash, Hspec. reflexivity.
Qed.

Lemma one_trailing_slash_makes_no_difference_witness :
  ends_with_slash "http://localhost:8000" = false /\
  loadStateFromAgent "http://localhost:8000/" "thread-1" None
    (Samples.world_of (Samples.conversing_agent 40))
  = loadStateFromAgent "http://localhost:8000" "thread-1" None
      (Samples.world_of (Samples.conversing_agent 40)).
Proof.
  split; [reflexivity|].
  exact (one_trailing_slash_makes_no_difference "http://localhost:8000" "thread-1" None
           (Samples.world_of (Samples.conversing_agent 40)) eq_refl).
Defined.

(** X10: state-loads keep nothing between calls: what a load returns is
    the same whether or not another load (for any agent URL, thread and
    timeout) ran before it. *)
Theorem earlier_load_does_not_affect_later_result
  agentUrl threadId timeoutMs agentUrl' threadId' timeoutMs' w :
  fst (loadStateFromAgent agentUrl threadId timeoutMs
         (snd (loadStateFromAgent agentUrl' threadId' timeoutMs' w)))
  = fst (loadStateFromAgent agentUrl threadId timeoutMs w).
Proof.
  destruct (loadStateFromAgent_run agentUrl' threadId' timeoutMs' w)
    as (w1 & H1 & Hagent & _).
  rewrite H1. cbn [snd].
  destruct (loadStateFromAgent_run agentUrl threadId timeoutMs w1) as (w2 & H2 & _).
  destruct (loadStateFromAgent_run agentUrl threadId timeoutMs w) as (w3 & H3 & _).
  rewrite H2, H3, Hagent. reflexivity.
Qed.

(** X20: the timeout only decides whether an answer is awaited: two
    timeouts whose abort timers (armed with [setTimeout]'s delay: the
    timeout itself from 1 to 2147483647, and 1 ms otherwise) both outlast
    the agent's answer lead to the same returned state. *)
Theorem timeout_is_irrelevant_once_met agentUrl threadId timeoutMs timeoutMs' w :
  elapsed (agent w (load_state_request agentUrl threadId))
    < timer_delay (default_parameter timeoutMs 5000) ->
  elapsed (agent w (load_state_request agentUrl threadId))
    < timer_delay (default_parameter timeoutMs' 5000) ->
  fst (loadStateFromAgent agentUrl threadId timeoutMs w)
  = fst (loadStateFromAgent agentUrl threadId timeoutMs' w).
Proof.
  intros Hfast Hfast'.
  destruct (loadStateFromAgent_run agentUrl threadId timeoutMs w) as (w1 & H1 & _).
  destruct (loadStateFromAgent_run agentUrl threadId timeoutMs' w) as (w2 & H2 & _).
  rewrite H1, H2. cbn [fst]. f_equal. unfold settled_state.
  apply Z.leb_gt in Hfast, Hfast'. now rewrite Hfast, Hfast'.
Qed.

Lemma timeout_is_irrelevant_once_met_witness :
  elapsed (agent (Samples.world_of (Samples.conversing_agent 40))
                 (load_state_request "http://localhost:8000" "thread-1"))
  < timer_delay 100 /\
  fst (loadStateFromAgent "http://localhost:8000" "thread-1" (Some 100)
         (Samples.world_of (Samples.conversing_agent 40)))
  = fst (loadStateFromAgent "http://localhost:8000" "thread-1" None
           (Samples.world_of (Samples.conversing_agent 40))).
Proof.
  assert (H : elapsed (agent (Samples.world_of (Samples.conversing_agent 40))
                             (load_state_request "http://localhost:8000" "thread-1"))
              < timer_delay (default_parameter (Some 100) 5000)) by reflexivity.
  split; [exact H|].
  exact (timeout_is_irrelevant_once_met "http://localhost:8000" "thread-1"
           (Some 100) None
           (Samples.world_of (Samples.conversing_agent 40)) H eq_refl).
Defined.

End FetchCoverage.

(* ================================================================== *)
(** ** Further facts: fetching and composing together *)
(* ================================================================== *)

Module PipelineCoverage.
Import JS JSON Spec Runtime Loader JSONFacts FetchFacts FetchCoverage.


Section Pipeline.

Variable StringToNumber : string -> JsNumber.


(** X12: end to end, a successful answer that arrives before the abort
    timer fires, whose messages are an array of parsed JSON data and whose
    state is a parsed JSON object, reaches the response unchanged:
    [threadExists] tells whether the array is non-empty, the messages
    field parses back to the array and the state field parses back to the
    state. *)
Theorem successful_answer_reaches_the_response
  agentUrl threadId timeoutMs w r data l o :
  elapsed (agent w (load_state_request agentUrl threadId))
    < timer_delay (default_parameter timeoutMs 5000) ->
  outcome (agent w (load_state_request agentUrl threadId)) = Normal r ->
  ok r = true ->
  json r = Normal data ->
  get data "messages" = Normal (JsArray l) ->
  get data "state" = Normal (JsObject o) ->
  Forall json_data l -> json_data (JsObject o) ->
  exists w' agentState response messagesText stateText,
    loadStateFromAgent agentUrl threadId timeoutMs w = (Normal agentState, w') /\
    createLoadStateResponse StringToNumber threadId agentState = Normal response /\
    LoadStateResponse.threadExists response
    = match l with [] => false | _ :: _ => true end /\
    LoadStateResponse.messages response = JsString messagesText /\
    JSON.parse messagesText = Some (JsArray l) /\
    LoadStateResponse.state response = JsString stateText /\
    JSON.parse stateText = Some (JsObject o).
Proof.
  intros Hfast Hr Hok Hjson Hm Hs Hl Ho.
  destruct (loadStateFromAgent_success agentUrl threadId timeoutMs w r data l
              (JsObject o) Hfast Hr Hok Hjson Hm Hs) as (w' & Hload).
  exists w'. eexists. eexists. exists (array_text l), (object_text o).
  split; [exact Hload|].
  split; [apply ComposerFacts.createLoadStateResponse_array|].
  cbn [LoadStateResponse.threadExists LoadStateResponse.messages LoadStateResponse.state].
  split; [reflexivity|]. split; [reflexivity|].
  split.
  { rewrite (parse_stringify (JsArray l)) by apply serialize_array.
    rewrite image_array, map_element_image_json_data by assumption. reflexivity. }
  split.
  { unfold js_or, stringify. cbn [truthy]. now rewrite serialize_object. }
  rewrite (parse_stringify (JsObject o)) by apply serialize_object.
  now apply image_json_data.
Qed.

(** X13: [createLoadStateResponse] has no guard of its own: it throws a
    TypeError when the messages field is [undefined] or [null] (reading
    its length fails), and when the messages or the state hold a BigInt
    ([JSON.stringify] fails). *)
Theorem createLoadStateResponse_throws_without_messages_or_on_bigint
  threadId agentState :
  Wide.messages agentState = Wide.WUndefined \/
  Wide.messages agentState = Wide.WNull \/
  Wide.holds_bigint (Wide.messages agentState) = true \/
  Wide.holds_bigint (Wide.state agentState) = true ->
  exists message,
    Wide.createLoadStateResponse StringToNumber threadId agentState
    = Throw (TypeError message).
Proof.
  intros Hbad.
  destruct (Wide.createLoadStateResponse StringToNumber threadId agentState)
    as [response|e] eqn:Hrun.
  - exfalso.
    destruct (WideFacts.createLoadStateResponse_normal_inputs
                StringToNumber threadId agentState response Hrun)
      as (Hundefined & Hnull & Hm & Hs).
    destruct Hbad as [H | [H | [H | H]]]; congruence.
  - destruct (WideFacts.createLoadStateResponse_throws_type_error
                StringToNumber threadId agentState e Hrun) as (message & ->).
    exists message. reflexivity.
Qed.

(** X14: the state field of a response is [undefined] when the state is
    [undefined], and otherwise a JSON text that parses to what the state
    serializes to; for a state that is parsed JSON data, it parses back to
    the state itself. *)
Theorem state_field_round_trip threadId l st :
  exists response,
    createLoadStateResponse StringToNumber threadId
      {| AgentState.messages := JsArray l; AgentState.state := st |}
    = Normal response /\
    match st with
    | JsUndefined => LoadStateResponse.state response = JsUndefined
    | _ => exists text,
             LoadStateResponse.state response = JsString text /\
             JSON.parse text = image st
    end /\
    (json_data st ->
     exists text,
       LoadStateResponse.state response = JsString text /\ JSON.parse text = Some st).
Proof.
  eexists. split; [apply ComposerFacts.createLoadStateResponse_array|].
  cbn [LoadStateResponse.state]. unfold stringify.
  destruct (serialize st) as [t|] eqn:Ht.
  - split.
    + destruct st; try discriminate Ht;
        (exists t; split; [reflexivity | now apply parse_stringify]).
    + intros Hdata. exists t. split; [reflexivity|].
      rewrite (parse_stringify st t Ht). now apply image_json_data.
  - apply serialize_none in Ht. subst st. split; [reflexivity | intros []].
Qed.

(** X15: on messages that are not an array the existence flag follows the
    [length] property: a string counts as an existing thread exactly when
    it is non-empty, while a number or a boolean (which have no length)
    never does. *)
Theorem threadExists_on_primitive_messages threadId st :
  (forall s, exists response,
      createLoadStateResponse StringToNumber threadId
        {| AgentState.messages := JsString s; AgentState.state := st |}
      = Normal response /\
      LoadStateResponse.threadExists response = negb (String.eqb s EmptyString)) /\
  (forall n, exists response,
      createLoadStateResponse StringToNumber threadId
        {| AgentState.messages := JsNum n; AgentState.state := st |}
      = Normal response /\
      LoadStateResponse.threadExists response = false) /\
  (forall b, exists response,
      createLoadStateResponse StringToNumber threadId
        {| AgentState.messages := JsBool b; AgentState.state := st |}
      = Normal response /\
      LoadStateResponse.threadExists response = false).
Proof.
  split; [|split; intros x; eexists; split; reflexivity].
  intros s. unfold createLoadStateResponse. cbn [AgentState.messages AgentState.state].
  unfold get, own_property. simpl String.eqb. cbn [bind].
  eexists. split; [reflexivity|]. cbn [LoadStateResponse.threadExists].
  unfold js_gt, ToNumber, number_lt. destruct s as [|c s]; [reflexivity|].
  change (negb (String.eqb (String c s) EmptyString)) with true.
  change (String.length (String c s)) with (S (String.length s)).
  apply Z.ltb_lt. lia.
Qed.

End Pipeline.

Lemma createLoadStateResponse_throws_without_messages_or_on_bigint_witness :
  Wide.holds_bigint
    (Wide.WArray [Wide.WObject [("id", Wide.WString "m1");
                                ("sequence", Wide.WBigInt 1)]]) = true /\
  exists message,
    Wide.createLoadStateResponse (fun _ => NaN) "thread-1"
      {| Wide.messages :=
           Wide.WArray [Wide.WObject [("id", Wide.WString "m1");
                                      ("sequence", Wide.WBigInt 1)]];
         Wide.state := Wide.WObject [] |}
    = Throw (TypeError message).
Proof.
  split; [reflexivity|].
  apply (createLoadStateResponse_throws_without_messages_or_on_bigint
           (fun _ => NaN) "thread-1"
           {| Wide.messages :=
                Wide.WArray [Wide.WObject [("id", Wide.WString "m1");
                                           ("sequence", Wide.WBigInt 1)]];
              Wide.state := Wide.WObject [] |}).
  right; right; left. reflexivity.
Defined.

Lemma successful_answer_reaches_the_response_witness :
  json_data (JsObject [("counter", JsNum (Finite 1))]) /\
  exists w' agentState response messagesText stateText,
    loadStateFromAgent "http://localhost:8000" "thread-1" None
      (Samples.world_of Scenarios.stateful_conversing_agent) = (Normal agentState, w') /\
    createLoadStateResponse (fun _ => NaN) "thread-1" agentState = Normal response /\
    LoadStateResponse.threadExists response = true /\
    LoadStateResponse.messages response = JsString messagesText /\
    JSON.parse messagesText = Some (JsArray Samples.conversation) /\
    LoadStateResponse.state response = JsString stateText /\
    JSON.parse stateText = Some (JsObject [("counter", JsNum (Finite 1))]).
Proof.
  assert (Hstate : json_data (JsObject [("counter", JsNum (Finite 1))]))
    by (repeat split).
  split; [exact Hstate|].
  exact (successful_answer_reaches_the_response (fun _ => NaN)
           "http://localhost:8000" "thread-1" None
           (Samples.world_of Scenarios.stateful_conversing_agent)
           (Samples.json_response 200
              (JsObject [("messages", JsArray Samples.conversation);
                         ("state", JsObject [("counter", JsNum (Finite 1))])]))
           (JsObject [("messages", JsArray Samples.conversation);
                      ("state", JsObject [("counter", JsNum (Finite 1))])])
           Samples.conversation [("counter", JsNum (Finite 1))]
           eq_refl eq_refl eq_refl eq_refl eq_refl eq_refl
           ComposerFacts.sample_conversation_is_json_data Hstate).
Defined.

End PipelineCoverage.

(* ================================================================== *)
(** ** Further facts: the helpers of the end-to-end test *)
(* ================================================================== *)

Module TestHelperFacts.
Import JS Loader TestHelpers JSONFacts.

Lemma substring_0_prefix n s : exists rest, s = String.substring 0 n s ++ rest.
Proof.
  revert s. induction n as [|n IH]; intros s.
  - exists s. now destruct s.
  - destruct s as [|c s]; [now exists EmptyString|].
    destruct (IH s) as (rest & Hrest). exists rest. simpl. now rewrite <- Hrest.
Qed.

Lemma substring_0_length n s :
  String.length (String.substring 0 n s) = Nat.min n (String.length s).
Proof.
  revert s. induction n as [|n IH]; intros s.
  - now destruct s.
  - destruct s as [|c s]; [reflexivity|]. simpl. now rewrite IH.
Qed.

(** [text.slice(0, n)] keeps the first characters of the text. *)
Lemma slice_from_0 text n :
  slice text 0 (Some n)
  = String.substring 0
      (Z.to_nat (if n <? 0 then Z.max (Z.of_nat (String.length text) + n) 0
                 else Z.min n (Z.of_nat (String.length text))))
      text.
Proof.
  unfold slice, default_parameter.
  change (0 <? 0) with false. cbv iota.
  rewrite (Z.min_l 0) by lia.
  set (to := if n <? 0 then Z.max (Z.of_nat (String.length text) + n) 0
             else Z.min n (Z.of_nat (String.length text))).
  destruct (Z.leb_spec to 0) as [Hle|Hgt].
  - replace (Z.to_nat to) with 0%nat by lia. now destruct text.
  - now rewrite Z.sub_0_r.
Qed.

(** X16: a snippet is always a prefix of the text it is cut from, so any
    element that shows the text also contains the snippet. *)
Theorem snippet_is_a_prefix text length :
  exists rest, text = snippet text length ++ rest.
Proof.
  unfold snippet.
  destruct (Z.of_nat (String.length text) <=? default_parameter length 80).
  - exists EmptyString. now rewrite append_nil_r.
  - rewrite slice_from_0. apply substring_0_prefix.
Qed.

Lemma snippet_length_bound text length :
  0 <= default_parameter length 80 ->
  Z.of_nat (String.length (snippet text length)) <= default_parameter length 80.
Proof.
  intros Hn. unfold snippet. set (n := default_parameter length 80) in *.
  destruct (Z.leb_spec (Z.of_nat (String.length text)) n) as [Hle|Hgt]; [exact Hle|].
  rewrite slice_from_0, substring_0_length.
  destruct (Z.ltb_spec n 0); lia.
Qed.

(** X17: the length of a snippet: for a non-negative [length] it is the
    smaller of the text's length and [length] (80 by default); for a
    negative [length] the snippet is the text without its last [-length]
    characters. *)
Theorem snippet_length text length :
  Z.of_nat (String.length (snippet text length))
  = if default_parameter length 80 <? 0
    then Z.max (Z.of_nat (String.length text) + default_parameter length 80) 0
    else Z.min (Z.of_nat (String.length text)) (default_parameter length 80).
Proof.
  unfold snippet. set (n := default_parameter length 80).
  destruct (Z.leb_spec (Z.of_nat (String.length text)) n) as [Hle|Hgt].
  - destruct (Z.ltb_spec n 0); lia.
  - rewrite slice_from_0, substring_0_length.
    destruct (Z.ltb_spec n 0); lia.
Qed.

(** X18: cutting a snippet again to the same non-negative length changes
    nothing. *)
Theorem snippet_is_idempotent text length :
  0 <= default_parameter length 80 ->
  snippet (snippet text length) length = snippet text length.
Proof.
  intros Hn. pose proof (snippet_length_bound text length Hn) as Hlen.
  unfold snippet at 1. apply Z.leb_le in Hlen. now rewrite Hlen.
Qed.

Lemma snippet_is_idempotent_witness :
  0 <= default_parameter (Some 5) 80 /\
  snippet (snippet "Hi, how can I help?" (Some 5)) (Some 5)
  = snippet "Hi, how can I help?" (Some 5).
Proof.
  assert (H : 0 <= default_parameter (Some 5) 80) by (simpl; lia).
  split; [exact H|].
  exact (snippet_is_idempotent "Hi, how can I help?" (Some 5) H).
Defined.

Lemma append_cancel_l (p a b : string) : p ++ a = p ++ b -> a = b.
Proof.
  induction p as [|c p IH]; simpl; intros H; [exact H|].
  injection H as H. now apply IH.
Qed.

(** Decimal digits are read off unambiguously up to a following dash. *)
Lemma digits_before_dash d1 d2 x y :
  NilEmpty.string_of_uint d1 ++ String "-" x
  = NilEmpty.string_of_uint d2 ++ String "-" y ->
  d1 = d2.
Proof.
  revert d2. induction d1 as [|d1 IH|d1 IH|d1 IH|d1 IH|d1 IH|d1 IH|d1 IH|d1 IH|d1 IH|d1 IH];
    intros d2; destruct d2; simpl; intros H;
    try discriminate H; try reflexivity;
    injection H as H; f_equal; now apply IH.
Qed.

Lemma timestamp_text now :
  0 <= now -> Number_toString (Finite now) = digits_of_N (Z.to_N now).
Proof. destruct now as [|p|p]; intros H; [reflexivity | reflexivity | lia]. Qed.

(** X19: two messages built from the same prefix at different clock
    readings are different, whatever the random parts are. *)
Theorem uniqueMessage_differs_across_clock_readings prefix now now' random random' :
  0 <= now -> 0 <= now' -> now <> now' ->
  uniqueMessage prefix now random <> uniqueMessage prefix now' random'.
Proof.
  intros Hnow Hnow' Hdiff Heq. apply Hdiff. unfold uniqueMessage in Heq.
  apply append_cancel_l in Heq.
  apply (append_cancel_l " ") in Heq.
  rewrite !timestamp_text in Heq by assumption.
  unfold digits_of_N in Heq.
  apply digits_before_dash, DecimalN.Unsigned.to_uint_inj in Heq. lia.
Qed.

Lemma uniqueMessage_differs_across_clock_readings_witness :
  1700000000123 <> 1700000000124 /\
  uniqueMessage "Playwright message" 1700000000123 "0.a3f9c"
  <> uniqueMessage "Playwright message" 1700000000124 "0.a3f9c".
Proof.
  assert (H : 1700000000123 <> 1700000000124) by lia.
  split; [exact H|].
  exact (uniqueMessage_differs_across_clock_readings "Playwright message"
           1700000000123 1700000000124 "0.a3f9c" "0.a3f9c"
           ltac:(lia) ltac:(lia) H).
Defined.

End TestHelperFacts.
